(** * COVID-19 economic impact analysis: a shallow embedding

    The script [economic_impact_analysis.py] simulates revenues for a
    number of businesses with NumPy's random generator, derives the
    percentage decline of every business with pandas, writes the table
    as CSV and renders four charts.

    NumPy [float64] values are IEEE 754 binary64 numbers.  They are
    modelled by the [spec_float] type of the standard library with
    precision 53 and maximal exponent 1024, so that every arithmetic
    operation below rounds exactly as the hardware does.  The random
    generator of NumPy is an interface ([RandomState]) whose laws are
    the sizes and ranges of the batches it returns; the script's state
    (generator, file system, trace of system calls and printed lines)
    is threaded through a state and exception monad. *)

From Stdlib Require Import ZArith List String Reals Lra Lia SpecFloat.
From stdpp Require Import base option list gmap strings sorting.
Import ListNotations.

Local Open Scope Z_scope.

(** ** IEEE 754 binary64 *)

Module Binary64.

Definition prec : Z := 53.
Definition emax : Z := 1024.

Definition float : Type := spec_float.

(** The representation is the canonical one of a binary64 number. *)
Definition valid (x : float) : Prop := valid_binary prec emax x = true.

Definition add : float -> float -> float := SFadd prec emax.
Definition sub : float -> float -> float := SFsub prec emax.
Definition mul : float -> float -> float := SFmul prec emax.
Definition div : float -> float -> float := SFdiv prec emax.

Definition leb : float -> float -> bool := SFleb.
Definition ltb : float -> float -> bool := SFltb.
Definition eqb : float -> float -> bool := SFeqb.

Definition is_nan (x : float) : bool :=
  match x with S754_nan => true | _ => false end.

Definition is_finite (x : float) : bool :=
  match x with S754_zero _ | S754_finite _ _ _ => true | _ => false end.

(** Conversion of a Python integer to [float64]. *)
Definition of_Z (z : Z) : float := binary_normalize prec emax z 0 false.

Definition of_nat (n : nat) : float := of_Z (Z.of_nat n).

Definition nan : float := S754_nan.
Definition zero : float := S754_zero false.

End Binary64.

Import Binary64.

(** The numeric literals of the script.  A decimal literal denotes the
    binary64 number nearest to it; for [0.3] that number is the
    correctly rounded quotient of 3 by 10. *)
Definition f_0_3 : float := Eval vm_compute in div (of_Z 3) (of_Z 10).
Definition f_1_0 : float := Eval vm_compute in of_Z 1.
Definition f_70 : float := Eval vm_compute in of_Z 70.
Definition f_100 : float := Eval vm_compute in of_Z 100.
Definition f_150 : float := Eval vm_compute in of_Z 150.
Definition f_500 : float := Eval vm_compute in of_Z 500.

(** ** Python exceptions *)

Inductive exn : Type :=
| FileExistsError
| FileNotFoundError
| NotADirectoryError
| OSError
| IsADirectoryError
| ValueError
| KeyError.

Inductive Result (A : Type) : Type :=
| Ok (a : A)
| Raise (e : exn).
Arguments Ok {A} a.
Arguments Raise {A} e.

(** ** The NumPy legacy random generator *)

(** [2^-53], the resolution of [random_sample], and [2^500]. *)
Definition f_2m53 : float := S754_finite false 4503599627370496 (-105).
Definition f_2p500 : float := S754_finite false 4503599627370496 448.

(** A number of the half-open unit interval as [random_sample] returns
    it: zero, or at least [2^-53] and below 1. *)
Definition unit_sample (u : float) : Prop :=
  valid u /\ (u = zero \/ (leb f_2m53 u = true /\ ltb u f_1_0 = true)).

(** A parameter of moderate size: finite, of magnitude at most [2^500]. *)
Definition moderate (x : float) : Prop :=
  valid x /\ leb (SFabs x) f_2p500 = true.

(** [np.random.seed], [np.random.choice] (through its index draw),
    [np.random.normal] and [np.random.uniform] (through
    [random_sample]) share one hidden generator state.  Each sampler
    returns a whole batch and the next state.  The laws: a batch has
    the requested size, an index lies below the population size, a
    normal deviate with moderate parameters is a finite number, a
    sample of the unit interval is zero or lies between [2^-53] and 1,
    1 excluded. *)
Class RandomState : Type := {
  rng_state : Type;
  rs_seed : Z -> rng_state;
  rs_randint : nat -> nat -> rng_state -> list nat * rng_state;
  rs_normal : float -> float -> nat -> rng_state -> list float * rng_state;
  rs_random_sample : nat -> rng_state -> list float * rng_state;
  rs_randint_length : forall high n g,
    length (fst (rs_randint high n g)) = n;
  rs_randint_bound : forall high n g i,
    (0 < high)%nat ->
    i ∈ fst (rs_randint high n g) -> (i < high)%nat;
  rs_normal_length : forall loc scale n g,
    length (fst (rs_normal loc scale n g)) = n;
  rs_normal_finite : forall loc scale n g x,
    moderate loc -> moderate scale ->
    x ∈ fst (rs_normal loc scale n g) ->
    valid x /\ is_finite x = true;
  rs_random_sample_length : forall n g,
    length (fst (rs_random_sample n g)) = n;
  rs_random_sample_range : forall n g u,
    u ∈ fst (rs_random_sample n g) -> unit_sample u
}.

(** ** Files, output and the state of a run *)

(** A path is its list of components: [os.path.join] appends. *)
Abbreviation path := (list string).

Definition os_path_join (a b : path) : path := a ++ b.

Definition path_str (p : path) : string := String.concat "/" p.

Inductive cell : Type :=
| CInt (z : Z)
| CStr (s : string)
| CFloat (x : float).

(** What a chart shows: the data handed to the plotting call. *)
Inductive plot : Type :=
| Histplot (values : list float) (bins : nat) (kde : bool)
| Boxplot (x : list string) (y : list float)
| Barplot (bars : list (string * float))
| Scatterplot (x y : list float) (hue : list string)
    (line_x line_y : list float).

Record figure : Type := {
  fig_plot : plot;
  fig_title : string;
  fig_xlabel : string;
  fig_ylabel : string
}.

Inductive file_content : Type :=
| CsvFile (rows : list (list cell))
| PngFile (fig : figure).

Inductive node : Type :=
| Dir
| File (c : file_content).

Inductive event : Type :=
| EvExists (p : path)
| EvMakedirs (p : path)
| EvWrite (p : path)
| EvPrint (line : string).

(** ** pandas and NumPy containers *)

Inductive column : Type :=
| IntCol (l : list Z)
| StrCol (l : list string)
| FloatCol (l : list float).

Definition column_cells (c : column) : list cell :=
  match c with
  | IntCol l => CInt <$> l
  | StrCol l => CStr <$> l
  | FloatCol l => CFloat <$> l
  end.

Definition column_length (c : column) : nat := length (column_cells c).

Record DataFrame : Type := {
  df_columns : list (string * column);
  df_nrows : nat
}.

(** [pd.DataFrame(dict)]: columns in insertion order, all of one length. *)
Definition pd_DataFrame (cols : list (string * column)) : Result DataFrame :=
  match cols with
  | [] => Ok {| df_columns := []; df_nrows := 0 |}
  | (_, c) :: _ =>
      if forallb (fun kc => Nat.eqb (column_length (snd kc)) (column_length c)) cols
      then Ok {| df_columns := cols; df_nrows := column_length c |}
      else Raise ValueError
  end.

Fixpoint assoc {A} (k : string) (l : list (string * A)) : option A :=
  match l with
  | [] => None
  | (k', v) :: l' => if String.eqb k k' then Some v else assoc k l'
  end.

(** [df[name]] *)
Definition df_getitem (df : DataFrame) (name : string) : Result column :=
  match assoc name (df_columns df) with
  | Some c => Ok c
  | None => Raise KeyError
  end.

Fixpoint set_assoc {A} (k : string) (v : A) (l : list (string * A))
  : list (string * A) :=
  match l with
  | [] => [(k, v)]
  | (k', v') :: l' =>
      if String.eqb k k' then (k', v) :: l' else (k', v') :: set_assoc k v l'
  end.

(** [df[name] = values] for values that have the frame's length, as
    at lines 63-64, where the column is computed from the frame's own
    columns: the column of that name is replaced, or a new last column
    is appended.  Values of another length are outside this model
    (pandas aligns a Series on the index and rejects most arrays); the
    model raises there, a case no run of the script reaches. *)
Definition df_setitem (df : DataFrame) (name : string) (c : column)
  : Result DataFrame :=
  if Nat.eqb (column_length c) (df_nrows df)
  then Ok {| df_columns := set_assoc name c (df_columns df);
             df_nrows := df_nrows df |}
  else Raise ValueError.

Definition df_header (df : DataFrame) : list cell :=
  (fun kc => CStr (fst kc)) <$> df_columns df.

Definition df_row (df : DataFrame) (i : nat) : list cell :=
  omap (fun kc => column_cells (snd kc) !! i) (df_columns df).

(** The table [to_csv(path, index=False)] writes: the header, then one
    line per row in index order. *)
Definition csv_table (df : DataFrame) : list (list cell) :=
  df_header df :: (df_row df <$> seq 0 (df_nrows df)).

(** [np.arange(start, stop)] for integers. *)
Definition np_arange (start stop : Z) : list Z := seqZ start (stop - start).

(** [np.maximum(x, lo)]: a NaN operand [x] is propagated. *)
Definition np_maximum (x lo : float) : float :=
  if is_nan x || leb lo x then x else lo.

(** [np.clip(a, a_min, None)] is [np.maximum(a, a_min)] elementwise. *)
Definition np_clip_min (a : list float) (a_min : float) : list float :=
  (fun x => np_maximum x a_min) <$> a.

(** Elementwise binary operation with broadcasting of a one-element
    operand; other shape mismatches raise. *)
Definition np_binop (f : float -> float -> float) (a b : list float)
  : Result (list float) :=
  if Nat.eqb (length a) (length b) then Ok (zip_with f a b)
  else match a, b with
       | [x], _ => Ok (f x <$> b)
       | _, [y] => Ok ((fun x => f x y) <$> a)
       | _, _ => Raise ValueError
       end.

Definition np_multiply : list float -> list float -> Result (list float) :=
  np_binop mul.

(** Arithmetic of two series of one frame: they share the index, so the
    operation is positional. *)
Definition series_binop (f : float -> float -> float) (a b : list float)
  : list float := zip_with f a b.

Definition series_scale (a : list float) (k : float) : list float :=
  (fun x => mul x k) <$> a.

(** [series.max()]: the largest value, NaN entries skipped; NaN for a
    series without values. *)
Definition series_max (l : list float) : float :=
  default nan
    (fold_left (fun acc x =>
                  if is_nan x then acc
                  else match acc with
                       | None => Some x
                       | Some a => Some (if ltb a x then x else a)
                       end) l None).

(** *** Aggregation

    A pandas aggregate is a streaming computation: an accumulator is
    started, fed the values one by one in row order, and finished.
    [series_agg] aggregates one series; [groupby_agg] keeps one
    accumulator per key and feeds each row to the accumulator of its
    key in a single pass, then yields one row per observed key, keys
    sorted. *)
Section Aggregate.

Context {A : Type} (init : A) (step : A -> float -> A) (finish : A -> float).

Definition series_agg (l : list float) : float :=
  finish (fold_left step l init).

Definition group_step (acc : gmap string A) (kv : string * float)
  : gmap string A :=
  <[fst kv := step (default init (acc !! fst kv)) (snd kv)]> acc.

Definition key_le (a b : string * A) : Prop :=
  String.leb (fst a) (fst b) = true.

#[local] Instance key_le_dec a b : Decision (key_le a b).
Proof. unfold key_le. apply _. Defined.

Definition groupby_agg (keys : list string) (vals : list float)
  : list (string * float) :=
  let acc := fold_left group_step (zip keys vals) ∅ in
  (fun ka => (fst ka, finish (snd ka))) <$> merge_sort key_le (map_to_list acc).

End Aggregate.

(** The mean as the grouped aggregation of pandas computes it
    ([group_mean]): per key a running sum, the compensation of Kahan's
    summation and the number of values that are not NaN.  A value
    [val] is added as

      y = val - compensation;  t = sumx + y;
      compensation = t - sumx - y;  sumx = t

    where a compensation that is NaN is reset to zero; the result is
    the quotient of sum and count, NaN for a key without values. *)
Record mean_acc : Type := {
  sumx : float;
  compensation : float;
  nobs : nat
}.

Definition mean_init : mean_acc :=
  {| sumx := zero; compensation := zero; nobs := 0 |}.

Definition mean_step (acc : mean_acc) (val : float) : mean_acc :=
  if is_nan val then acc
  else
    let y := sub val (compensation acc) in
    let t := add (sumx acc) y in
    let c := sub (sub t (sumx acc)) y in
    {| sumx := t;
       compensation := if is_nan c then zero else c;
       nobs := S (nobs acc) |}.

Definition mean_finish (acc : mean_acc) : float :=
  match nobs acc with
  | O => nan
  | S _ => div (sumx acc) (of_nat (nobs acc))
  end.

(** The grouped mean of the values of one key. *)
Definition group_mean : list float -> float :=
  series_agg mean_init mean_step mean_finish.

(** [df.groupby(key)[value].mean().reset_index()] *)
Definition groupby_mean : list string -> list float -> list (string * float) :=
  groupby_agg mean_init mean_step mean_finish.

(** The values of the rows whose key is [k]: what the specification
    calls the records restricted to one sector. *)
Definition restrict (k : string) (keys : list string) (vals : list float)
  : list float :=
  snd <$> filter (fun kv => fst kv = k) (zip keys vals).

(** ** The script *)

Section Script.

Context {RS : RandomState}.

(** The state a run threads: the hidden generator state, the file
    system, and the trace of system calls and printed lines. *)
Record world : Type := {
  w_rng : rng_state;
  w_fs : gmap path node;
  w_events : list event
}.

Definition M (A : Type) : Type := world -> Result (A * world).

Definition ret {A} (a : A) : M A := fun w => Ok (a, w).

Definition bind {A B} (m : M A) (k : A -> M B) : M B :=
  fun w => match m w with
           | Ok (a, w') => k a w'
           | Raise e => Raise e
           end.

Definition raise {A} (e : exn) : M A := fun _ => Raise e.

Definition lift {A} (r : Result A) : M A :=
  fun w => match r with Ok a => Ok (a, w) | Raise e => Raise e end.

Notation "x <- m ;; k" := (bind m (fun x => k))
  (at level 100, m at next level, right associativity).
Notation "m ;;; k" := (bind m (fun _ => k))
  (at level 100, right associativity).

Definition log (e : event) : M unit :=
  fun w => Ok (tt, {| w_rng := w_rng w; w_fs := w_fs w;
                      w_events := w_events w ++ [e] |}).

Definition print (line : string) : M unit := log (EvPrint line).

(** *** The operating system *)

Definition os_path_exists (p : path) : M bool :=
  log (EvExists p) ;;;
  fun w => Ok (bool_decide (is_Some (w_fs w !! p)), w).

(** [os.makedirs] of a single component (the script's directory is
    relative to the working directory, which exists). *)
Definition os_makedirs (p : path) : M unit :=
  log (EvMakedirs p) ;;;
  fun w => match w_fs w !! p with
           | Some _ => Raise FileExistsError
           | None => Ok (tt, {| w_rng := w_rng w;
                                w_fs := <[p := Dir]> (w_fs w);
                                w_events := w_events w |})
           end.

(** Opening [p] for writing truncates or creates the file; the parent
    must be a directory and [p] itself must not be one. *)
Definition write_file (p : path) (c : file_content) : M unit :=
  log (EvWrite p) ;;;
  fun w => match w_fs w !! removelast p with
           | None => Raise FileNotFoundError
           | Some (File _) => Raise NotADirectoryError
           | Some Dir =>
               match w_fs w !! p with
               | Some Dir => Raise IsADirectoryError
               | _ => Ok (tt, {| w_rng := w_rng w;
                                 w_fs := <[p := File c]> (w_fs w);
                                 w_events := w_events w |})
               end
           end.

(** *** The generator *)

Definition np_random_seed (s : Z) : M unit :=
  fun w => Ok (tt, {| w_rng := rs_seed s; w_fs := w_fs w;
                      w_events := w_events w |}).

Definition draw {A} (sampler : rng_state -> list A * rng_state) : M (list A) :=
  fun w => Ok (fst (sampler (w_rng w)),
               {| w_rng := snd (sampler (w_rng w));
                  w_fs := w_fs w; w_events := w_events w |}).

(** [np.random.choice(a, size=n)]: [n] indices below [len(a)], then the
    elements at those indices. *)
Definition np_random_choice (a : list string) (n : nat) : M (list string) :=
  match a, n with
  | [], S _ => raise ValueError
  | _, _ =>
      idx <- draw (rs_randint (length a) n) ;;
      ret ((fun i => nth i a EmptyString) <$> idx)
  end.

Definition np_random_normal (loc scale : float) (n : nat) : M (list float) :=
  draw (rs_normal loc scale n).

(** [np.random.uniform(low, high, n)]: the range [high - low] is
    computed once, then every sample [u] of the unit interval gives
    [low + range * u]. *)
Definition np_random_uniform (low high : float) (n : nat) : M (list float) :=
  let range := sub high low in
  us <- draw (rs_random_sample n) ;;
  ret ((fun u => add low (mul range u)) <$> us).

(** *** Writing artifacts *)

(** [df.to_csv(path, index=False)]: pandas first checks that the
    parent of the path is a directory and raises [OSError] when it is
    not, then opens the file for writing. *)
Definition df_to_csv (df : DataFrame) (p : path) : M unit :=
  fun w => match w_fs w !! removelast p with
           | Some Dir => write_file p (CsvFile (csv_table df)) w
           | _ => Raise OSError
           end.

Definition plt_savefig (p : path) (f : figure) : M unit :=
  write_file p (PngFile f).

Definition float_column (df : DataFrame) (name : string) : M (list float) :=
  c <- lift (df_getitem df name) ;;
  match c with FloatCol l => ret l | _ => raise ValueError end.

Definition str_column (df : DataFrame) (name : string) : M (list string) :=
  c <- lift (df_getitem df name) ;;
  match c with StrCol l => ret l | _ => raise ValueError end.

(** *** The program text *)

Definition output_dir : path := ["output_images"%string].

Definition n_businesses : nat := 1000.

Definition sectors : list string :=
  ["Retail"; "Hospitality"; "Manufacturing"; "Services"; "Healthcare"]%string.

Record simulated : Type := {
  business_ids : list Z;
  business_sectors : list string;
  pre_covid_revenue : list float;
  drop_factors : list float;
  post_covid_revenue : list float
}.

(** Lines 43-52: the data simulation for [n] businesses. *)
Definition simulate (n : nat) : M simulated :=
  let ids := np_arange 1 (Z.of_nat n + 1) in
  secs <- np_random_choice sectors n ;;
  raw <- np_random_normal f_500 f_150 n ;;
  let pre := np_clip_min raw f_100 in
  drops <- np_random_uniform f_0_3 f_1_0 n ;;
  post <- lift (np_multiply pre drops) ;;
  ret {| business_ids := ids;
         business_sectors := secs;
         pre_covid_revenue := pre;
         drop_factors := drops;
         post_covid_revenue := post |}.

(** Lines 55-60. *)
Definition make_frame (s : simulated) : M DataFrame :=
  lift (pd_DataFrame
          [("business_id"%string, IntCol (business_ids s));
           ("sector"%string, StrCol (business_sectors s));
           ("pre_covid_revenue"%string, FloatCol (pre_covid_revenue s));
           ("post_covid_revenue"%string, FloatCol (post_covid_revenue s))]).

(** Lines 63-64: the revenue decline in percent. *)
Definition decline_of (pre post : list float) : list float :=
  series_scale (series_binop div (series_binop sub pre post) pre) f_100.

Definition derive (df : DataFrame) : M DataFrame :=
  pre <- float_column df "pre_covid_revenue" ;;
  post <- float_column df "post_covid_revenue" ;;
  lift (df_setitem df "decline_percent" (FloatCol (decline_of pre post))).

(** Lines 43-64 together: the table with its derived column. *)
Definition dataset (n : nat) : M DataFrame :=
  s <- simulate n ;;
  df <- make_frame s ;;
  derive df.

Definition csv_path : path :=
  os_path_join output_dir ["covid_impact_data.csv"%string].
Definition hist_path : path :=
  os_path_join output_dir ["hist_decline_percent.png"%string].
Definition boxplot_path : path :=
  os_path_join output_dir ["boxplot_decline_by_sector.png"%string].
Definition barplot_path : path :=
  os_path_join output_dir ["barplot_avg_decline_by_sector.png"%string].
Definition scatter_path : path :=
  os_path_join output_dir ["scatter_pre_vs_post_revenue.png"%string].

(** Lines 73-78, 85-89, 96-101 and 108-117: what each chart shows. *)
Definition hist_figure (decline : list float) : figure :=
  {| fig_plot := Histplot decline 30 true;
     fig_title := "Histogram of Revenue Decline Percentages";
     fig_xlabel := "Revenue Decline (%)";
     fig_ylabel := "Count" |}.

Definition boxplot_figure (sector : list string) (decline : list float) : figure :=
  {| fig_plot := Boxplot sector decline;
     fig_title := "Revenue Decline Percentage by Sector";
     fig_xlabel := "Sector";
     fig_ylabel := "Revenue Decline (%)" |}.

Definition barplot_figure (sector : list string) (decline : list float) : figure :=
  let avg_decline := groupby_mean sector decline in
  {| fig_plot := Barplot avg_decline;
     fig_title := "Average Revenue Decline Percentage by Sector";
     fig_xlabel := "Sector";
     fig_ylabel := "Average Revenue Decline (%)" |}.

Definition scatter_figure (pre post : list float) (sector : list string) : figure :=
  let max_rev := series_max pre in
  {| fig_plot := Scatterplot pre post sector [zero; max_rev] [zero; max_rev];
     fig_title := "Pre-COVID vs. Post-COVID Revenue";
     fig_xlabel := "Pre-COVID Revenue (thousands)";
     fig_ylabel := "Post-COVID Revenue (thousands)" |}.

(** Lines 67-121: the CSV file and the four charts. *)
Definition export (df : DataFrame) : M unit :=
  df_to_csv df csv_path ;;;
  print ("Data saved to: " +:+ path_str csv_path) ;;;
  decline <- float_column df "decline_percent" ;;
  plt_savefig hist_path (hist_figure decline) ;;;
  print ("Histogram saved to: " +:+ path_str hist_path) ;;;
  sector <- str_column df "sector" ;;
  decline <- float_column df "decline_percent" ;;
  plt_savefig boxplot_path (boxplot_figure sector decline) ;;;
  print ("Boxplot saved to: " +:+ path_str boxplot_path) ;;;
  sector <- str_column df "sector" ;;
  decline <- float_column df "decline_percent" ;;
  plt_savefig barplot_path (barplot_figure sector decline) ;;;
  print ("Bar plot saved to: " +:+ path_str barplot_path) ;;;
  pre <- float_column df "pre_covid_revenue" ;;
  post <- float_column df "post_covid_revenue" ;;
  sector <- str_column df "sector" ;;
  plt_savefig scatter_path (scatter_figure pre post sector) ;;;
  print ("Scatter plot saved to: " +:+ path_str scatter_path).

(** Lines 30-36: the seed and the output directory. *)
Definition setup : M unit :=
  np_random_seed 42 ;;;
  present <- os_path_exists output_dir ;;
  if negb present
  then os_makedirs output_dir ;;;
       print ("Created output directory: " +:+ path_str output_dir)
  else ret tt.

(** The whole script, for [n] businesses. *)
Definition script (n : nat) : M unit :=
  setup ;;;
  df <- dataset n ;;
  export df.

(** The run of the program text: [script] for the 1000 businesses of
    line 39, then the closing line 123. *)
Definition main : M unit :=
  script n_businesses ;;;
  print "All images have been saved in the 'output_images' folder. You can now download them from that folder.".

End Script.

(** ** A generator for examples *)

(** A counter-driven generator that satisfies the laws of
    [RandomState]: indices cycle through the population, normal
    deviates cycle through three fixed numbers (one of them below the
    clamp), samples of the unit interval cycle through 1/2, 0 and the
    largest number below 1. *)
Definition example_normals (i : nat) : float :=
  match (i mod 3)%nat with
  | 0%nat => ltac:(let x := eval vm_compute in (div (of_Z 1021) (of_Z 2)) in exact x)
  | 1%nat => ltac:(let x := eval vm_compute in (div (of_Z 85) (of_Z 2)) in exact x)
  | _ => ltac:(let x := eval vm_compute in (div (of_Z 98765) (of_Z 8)) in exact x)
  end.

Definition example_samples (i : nat) : float :=
  match (i mod 3)%nat with
  | 0%nat => ltac:(let x := eval vm_compute in (div (of_Z 1) (of_Z 2)) in exact x)
  | 1%nat => zero
  | _ => ltac:(let x := eval vm_compute in
                 (div (of_Z 9007199254740991) (of_Z 9007199254740992)) in exact x)
  end.

Definition example_rng : RandomState.
Proof.
  refine {|
    rng_state := nat;
    rs_seed := fun s => Z.to_nat s;
    rs_randint := fun high n g =>
      ((fun i => ((g + i) mod high)%nat) <$> seq 0 n, (g + n)%nat);
    rs_normal := fun _ _ n g =>
      ((fun i => example_normals (g + i)) <$> seq 0 n, (g + n)%nat);
    rs_random_sample := fun n g =>
      ((fun i => example_samples (g + i)) <$> seq 0 n, (g + n)%nat)
  |}.
  - abstract (intros; simpl; rewrite length_fmap, length_seq; reflexivity).
  - abstract (intros high n g i Hh Hi; simpl in Hi;
              apply list_elem_of_fmap in Hi; destruct Hi as (j & -> & _);
              apply Nat.mod_upper_bound; lia).
  - abstract (intros; simpl; rewrite length_fmap, length_seq; reflexivity).
  - abstract (intros loc scale n g x _ _ Hx; simpl in Hx;
              apply list_elem_of_fmap in Hx; destruct Hx as (j & -> & _);
              unfold example_normals;
              destruct ((g + j) mod 3)%nat as [|[|]]; split; reflexivity).
  - abstract (intros; simpl; rewrite length_fmap, length_seq; reflexivity).
  - abstract (intros n g u Hu; simpl in Hu;
              apply list_elem_of_fmap in Hu; destruct Hu as (j & -> & _);
              unfold example_samples, unit_sample;
              destruct ((g + j) mod 3)%nat as [|[|]];
              (split; [reflexivity|]);
              [right; split; reflexivity | left; reflexivity
              | right; split; reflexivity]).
Defined.

(** ** The sampling order, as the specification states it *)

(** The specification fixes the order of the three batched draws from
    the generator state [g]: all sectors, then all pre-shock revenues,
    then all drop factors.  [simulated_from] spells that order out; it
    is compared with [simulate] below. *)
Section SamplingOrder.

Context {RS : RandomState}.

Definition sector_batch (n : nat) (g : rng_state) : list string :=
  (fun i => nth i sectors EmptyString) <$> fst (rs_randint (length sectors) n g).

Definition normal_batch (n : nat) (g : rng_state) : list float :=
  fst (rs_normal f_500 f_150 n (snd (rs_randint (length sectors) n g))).

Definition uniform_batch (n : nat) (g : rng_state) : list float :=
  (fun u => add f_0_3 (mul (sub f_1_0 f_0_3) u))
    <$> fst (rs_random_sample n
               (snd (rs_normal f_500 f_150 n (snd (rs_randint (length sectors) n g))))).

Definition rng_after (n : nat) (g : rng_state) : rng_state :=
  snd (rs_random_sample n
         (snd (rs_normal f_500 f_150 n (snd (rs_randint (length sectors) n g))))).

Definition simulated_from (n : nat) (g : rng_state) : simulated :=
  let pre := (fun x => np_maximum x f_100) <$> normal_batch n g in
  {| business_ids := seqZ 1 (Z.of_nat n);
     business_sectors := sector_batch n g;
     pre_covid_revenue := pre;
     drop_factors := uniform_batch n g;
     post_covid_revenue := zip_with mul pre (uniform_batch n g) |}.

(** The table of a simulation: the four simulated columns and the
    derived one, without the drop factors. *)
Definition table_of (s : simulated) : DataFrame :=
  {| df_columns :=
       [("business_id"%string, IntCol (business_ids s));
        ("sector"%string, StrCol (business_sectors s));
        ("pre_covid_revenue"%string, FloatCol (pre_covid_revenue s));
        ("post_covid_revenue"%string, FloatCol (post_covid_revenue s));
        ("decline_percent"%string,
         FloatCol (decline_of (pre_covid_revenue s) (post_covid_revenue s)))];
     df_nrows := length (business_ids s) |}.

(** The five files of a run. *)
Definition artifact_paths : list path :=
  [csv_path; hist_path; boxplot_path; barplot_path; scatter_path].

(** The file system after the export of the table of [s]. *)
Definition exported_fs (s : simulated) (fs : gmap path node) : gmap path node :=
  let decline := decline_of (pre_covid_revenue s) (post_covid_revenue s) in
  <[scatter_path :=
      File (PngFile (scatter_figure (pre_covid_revenue s) (post_covid_revenue s)
                       (business_sectors s)))]>
  (<[barplot_path := File (PngFile (barplot_figure (business_sectors s) decline))]>
  (<[boxplot_path := File (PngFile (boxplot_figure (business_sectors s) decline))]>
  (<[hist_path := File (PngFile (hist_figure decline))]>
  (<[csv_path := File (CsvFile (csv_table (table_of s)))]> fs)))).

(** The trace of the export: each file is written, then announced. *)
Definition export_events : list event :=
  [EvWrite csv_path;
   EvPrint ("Data saved to: " +:+ path_str csv_path);
   EvWrite hist_path;
   EvPrint ("Histogram saved to: " +:+ path_str hist_path);
   EvWrite boxplot_path;
   EvPrint ("Boxplot saved to: " +:+ path_str boxplot_path);
   EvWrite barplot_path;
   EvPrint ("Bar plot saved to: " +:+ path_str barplot_path);
   EvWrite scatter_path;
   EvPrint ("Scatter plot saved to: " +:+ path_str scatter_path)].

(** The output directory is absent or a directory, and none of the
    five artifact paths is a directory: the run can write its files. *)
Definition fs_ready (fs : gmap path node) : Prop :=
  (fs !! output_dir = None \/ fs !! output_dir = Some Dir) /\
  forall p, p ∈ artifact_paths -> fs !! p <> Some Dir.

End SamplingOrder.

(** A world for examples: generator state 0, empty file system, empty
    trace. *)
Definition example_world : @world example_rng :=
  @Build_world example_rng 0%nat ∅ [].

(** The same world with the output directory already present. *)
Definition example_world_with_dir : @world example_rng :=
  @Build_world example_rng 0%nat {[ output_dir := Dir ]} [].

(** ** Real-number semantics of binary64

    The definitions of this part are used to state and prove the
    numeric properties; the program itself computes with [float]. *)


Definition bpow (e : Z) : R := powerRZ 2 e.

Definition F2R (m e : Z) : R := (IZR m * bpow e)%R.

(** Position of a real number between an integer and its successor. *)
Definition inbetween (m : Z) (l : location) (x : R) : Prop :=
  match l with
  | loc_Exact => x = IZR m
  | loc_Inexact Lt => (IZR m < x < IZR m + / 2)%R
  | loc_Inexact Eq => x = (IZR m + / 2)%R
  | loc_Inexact Gt => (IZR m + / 2 < x < IZR m + 1)%R
  end.

(** [w] is a nearest multiple of the unit in the last place of [v],
    for [v] in the binade [[2^(k-1), 2^k)]. *)
Definition Rnd (v w : R) : Prop :=
  exists k N : Z,
    (bpow (k - 1) <= v < bpow k)%R /\
    w = F2R N (k - prec) /\
    (- / 2 <= v * bpow (prec - k) - IZR N <= / 2)%R.

(** A positive normal number and its value. *)
Definition pos_normal (x : float) (v : R) : Prop :=
  exists (m : positive) (e : Z),
    x = S754_finite false m e /\
    Z.pos (digits2_pos m) = prec /\
    emin prec emax <= e <= emax - prec /\
    v = F2R (Z.pos m) e.

(** Half a unit in the last place of 1: the unit roundoff [2^-53]. *)
Definition ulp_half : R := bpow (- prec).

(** The value of the literal [0.3]. *)
Definition R_0_3 : R := F2R 5404319552844595 (-54).

(** The range [1.0 - 0.3] of the uniform draw, as binary64 computes it. *)
Definition f_0_7 : float := Eval vm_compute in sub f_1_0 f_0_3.

(** ** Notions used to describe a run *)

(** The number 30, the product of the least drop factor and the least
    pre-shock revenue. *)
Definition f_30 : float := Eval vm_compute in of_Z 30.

(** Every column of a frame has as many cells as the frame has rows. *)
Definition df_wf (df : DataFrame) : Prop :=
  forall kc, kc ∈ df_columns df -> column_length (snd kc) = df_nrows df.

(** The four chart files. *)
Definition chart_paths : list path :=
  [hist_path; boxplot_path; barplot_path; scatter_path].

(** One step of [series_max]: a NaN entry is skipped, the first value
    is taken, a later value replaces the running one when larger. *)
Definition max_step (acc : option float) (x : float) : option float :=
  if is_nan x then acc
  else match acc with
       | None => Some x
       | Some a => Some (if ltb a x then x else a)
       end.

(** The world the example run of two businesses leaves behind: the
    directory is created, the five files are written. *)
Definition example_world_after : @world example_rng :=
  @Build_world example_rng
    (@rng_after example_rng 2 (@rs_seed example_rng 42))
    (exported_fs (@simulated_from example_rng 2 (@rs_seed example_rng 42))
       (<[output_dir := Dir]> ∅))
    ([EvExists output_dir; EvMakedirs output_dir;
      EvPrint "Created output directory: output_images"] ++ export_events).

(** A frame of two rows for examples. *)
Definition example_frame : DataFrame :=
  {| df_columns := [("business_id"%string, IntCol [1; 2]);
                    ("sector"%string, StrCol ["Retail"; "Services"]%string)];
     df_nrows := 2 |}.

(** ** Real-number semantics of sums

    Used to state that a bar of the chart of means is the arithmetic
    mean of its values up to rounding. *)









(** * Binary64 arithmetic: rounding to nearest *)

Section BpowFacts.
Local Open Scope R_scope.

Lemma bpow_gt_0 e : 0 < bpow e.
Proof. apply powerRZ_lt. lra. Qed.

Lemma bpow_plus a b : bpow (a + b) = bpow a * bpow b.
Proof. apply powerRZ_add. lra. Qed.

Lemma bpow_0 : bpow 0 = 1.
Proof. reflexivity. Qed.

Lemma bpow_1 : bpow 1 = 2.
Proof. unfold bpow. simpl. lra. Qed.

Lemma bpow_opp e : bpow (- e) = / bpow e.
Proof. apply powerRZ_neg'. Qed.

Lemma bpow_m1 : bpow (-1) = / 2.
Proof. unfold bpow. simpl. lra. Qed.

Lemma bpow_succ e : bpow (e + 1) = 2 * bpow e.
Proof. rewrite bpow_plus, bpow_1. lra. Qed.


Lemma bpow_le_nonneg n : (0 <= n)%Z -> 1 <= bpow n.
Proof.
  intros Hn. pattern n. apply natlike_ind; [rewrite bpow_0; lra | | exact Hn].
  intros x Hx IH. unfold Z.succ. rewrite bpow_succ. lra.
Qed.

Lemma bpow_le a b : (a <= b)%Z -> bpow a <= bpow b.
Proof.
  intros H. replace b with (a + (b - a))%Z by lia.
  rewrite bpow_plus.
  pose proof (bpow_gt_0 a). pose proof (bpow_le_nonneg (b - a) ltac:(lia)).
  nra.
Qed.

Lemma bpow_lt a b : (a < b)%Z -> bpow a < bpow b.
Proof.
  intros H.
  pose proof (bpow_le (a + 1) b ltac:(lia)) as H1.
  rewrite bpow_succ in H1. pose proof (bpow_gt_0 a). lra.
Qed.

Lemma bpow_lt_inv a b : bpow a < bpow b -> (a < b)%Z.
Proof.
  intros H. destruct (Z_lt_le_dec a b) as [|Hle]; [assumption|].
  apply bpow_le in Hle. lra.
Qed.

Lemma bpow_le_inv a b : bpow a <= bpow b -> (a <= b)%Z.
Proof.
  intros H. destruct (Z_le_gt_dec a b) as [|Hgt]; [assumption|].
  apply Z.gt_lt, bpow_lt in Hgt. lra.
Qed.

Lemma bpow_IZR n : (0 <= n)%Z -> bpow n = IZR (2 ^ n).
Proof.
  intros Hn. pattern n. apply natlike_ind; [reflexivity | | exact Hn].
  intros x Hx IH. unfold Z.succ.
  rewrite bpow_succ, IH, Z.pow_add_r, mult_IZR by lia.
  change (2 ^ 1)%Z with 2%Z. lra.
Qed.

Lemma bpow_cancel a : bpow a * bpow (- a) = 1.
Proof. rewrite <- bpow_plus. replace (a + - a)%Z with 0%Z by lia. apply bpow_0. Qed.

End BpowFacts.

(** ** Mantissa sizes *)

Lemma digits2_pos_bounds (m : positive) :
  2 ^ (Z.pos (digits2_pos m) - 1) <= Z.pos m < 2 ^ Z.pos (digits2_pos m).
Proof.
  induction m as [p IH | p IH |]; simpl digits2_pos;
    [rewrite Pos2Z.inj_succ, (Pos2Z.inj_xI p)
    |rewrite Pos2Z.inj_succ, (Pos2Z.inj_xO p)
    |simpl; lia];
    set (d := Z.pos (digits2_pos p)) in *;
    assert (Hd : 2 ^ d = 2 * 2 ^ (d - 1))
      by (rewrite <- Z.pow_succ_r by lia; f_equal; lia);
    replace (Z.succ d - 1) with d by lia;
    rewrite Z.pow_succ_r by lia; lia.
Qed.

Section Rounding.
Local Open Scope R_scope.

Lemma digits_bpow (m : positive) :
  bpow (Z.pos (digits2_pos m) - 1) <= IZR (Z.pos m) < bpow (Z.pos (digits2_pos m)).
Proof.
  destruct (digits2_pos_bounds m) as [Hl Hu].
  rewrite !bpow_IZR by lia. split; [apply IZR_le | apply IZR_lt]; assumption.
Qed.

Lemma digits_unique (m : positive) (k : Z) :
  bpow (k - 1) <= IZR (Z.pos m) < bpow k -> Z.pos (digits2_pos m) = k.
Proof.
  intros [Hl Hu]. destruct (digits_bpow m) as [Hl' Hu'].
  assert (k - 1 < Z.pos (digits2_pos m))%Z by (apply bpow_lt_inv; lra).
  assert (Z.pos (digits2_pos m) - 1 < k)%Z by (apply bpow_lt_inv; lra).
  lia.
Qed.

Lemma IZR_succ_le (a b : Z) : IZR a < IZR b -> IZR a + 1 <= IZR b.
Proof.
  intros H. apply lt_IZR in H. rewrite <- plus_IZR. apply IZR_le. lia.
Qed.

Lemma inbetween_bounds m l x : inbetween m l x -> IZR m <= x < IZR m + 1.
Proof. destruct l as [|[]]; simpl; lra. Qed.

Lemma shr_1_inbetween mrs x :
  (0 <= shr_m mrs)%Z ->
  inbetween (shr_m mrs) (loc_of_shr_record mrs) x ->
  (0 <= shr_m (shr_1 mrs))%Z /\
  inbetween (shr_m (shr_1 mrs)) (loc_of_shr_record (shr_1 mrs)) (x * / 2).
Proof.
  destruct mrs as [m r s]. simpl shr_m at 1 2.
  intros Hm H.
  destruct m as [|[p|p|]|p]; try lia;
    destruct r, s; simpl in H |- *;
    try rewrite (Pos2Z.inj_xI p) in H; try rewrite (Pos2Z.inj_xO p) in H;
    rewrite ?plus_IZR, ?mult_IZR in H; (split; [lia | lra]).
Qed.

Lemma iter_shr_inbetween (p : positive) : forall mrs x,
  (0 <= shr_m mrs)%Z ->
  inbetween (shr_m mrs) (loc_of_shr_record mrs) x ->
  (0 <= shr_m (SpecFloat.iter_pos shr_1 p mrs))%Z /\
  inbetween (shr_m (SpecFloat.iter_pos shr_1 p mrs))
    (loc_of_shr_record (SpecFloat.iter_pos shr_1 p mrs)) (x * bpow (- Z.pos p)).
Proof.
  induction p as [p IH | p IH |]; intros mrs x Hm H; simpl iter_pos.
  - destruct (shr_1_inbetween _ _ Hm H) as [Hm1 H1].
    destruct (IH _ _ Hm1 H1) as [Hm2 H2].
    destruct (IH _ _ Hm2 H2) as [Hm3 H3].
    split; [assumption|].
    replace (x * bpow (- Z.pos p~1)) with (x * / 2 * bpow (- Z.pos p) * bpow (- Z.pos p));
      [assumption|].
    replace (- Z.pos p~1)%Z with (-1 + (- Z.pos p + - Z.pos p))%Z by lia.
    rewrite !bpow_plus, bpow_m1. lra.
  - destruct (IH _ _ Hm H) as [Hm2 H2].
    destruct (IH _ _ Hm2 H2) as [Hm3 H3].
    split; [assumption|].
    replace (x * bpow (- Z.pos p~0)) with (x * bpow (- Z.pos p) * bpow (- Z.pos p));
      [assumption|].
    replace (- Z.pos p~0)%Z with (- Z.pos p + - Z.pos p)%Z by lia.
    rewrite !bpow_plus. lra.
  - change (- (1))%Z with (-1)%Z. rewrite bpow_m1.
    apply shr_1_inbetween; assumption.
Qed.

Lemma shr_inbetween mrs e n x :
  (0 <= n)%Z -> (0 <= shr_m mrs)%Z ->
  inbetween (shr_m mrs) (loc_of_shr_record mrs) x ->
  exists mrs', shr mrs e n = (mrs', (e + n)%Z) /\
    (0 <= shr_m mrs')%Z /\
    inbetween (shr_m mrs') (loc_of_shr_record mrs') (x * bpow (- n)).
Proof.
  intros Hn Hm H. destruct n as [|p|p]; try lia.
  - exists mrs. split; [simpl; f_equal; lia|]. split; [assumption|].
    replace (x * bpow (- 0)) with x; [assumption|].
    change (- 0)%Z with 0%Z. rewrite bpow_0. lra.
  - exists (SpecFloat.iter_pos shr_1 p mrs). split; [reflexivity|].
    apply iter_shr_inbetween; assumption.
Qed.

Lemma shr_record_of_loc_m m l : shr_m (shr_record_of_loc m l) = m.
Proof. destruct l as [|[]]; reflexivity. Qed.

Lemma loc_of_shr_record_of_loc m l :
  loc_of_shr_record (shr_record_of_loc m l) = l.
Proof. destruct l as [|[]]; reflexivity. Qed.

Lemma round_nearest_even_spec m l x :
  inbetween m l x ->
  (m <= round_nearest_even m l <= m + 1)%Z /\
  - / 2 <= x - IZR (round_nearest_even m l) <= / 2.
Proof.
  destruct l as [|[]]; simpl; intros H.
  - split; [lia|]. lra.
  - destruct (Z.even m); (split; [lia|]); try rewrite plus_IZR; lra.
  - split; [lia|]. lra.
  - split; [lia|]. rewrite plus_IZR. lra.
Qed.

End Rounding.

Section RoundAux.
Local Open Scope R_scope.

Lemma fexp_normal k :
  (emin prec emax <= k - prec)%Z -> fexp prec emax k = (k - prec)%Z.
Proof. intros H. unfold fexp. lia. Qed.

(** Rounding a positive number that stays in the normal range. *)
Lemma round_aux_normal s (M e : Z) (l : location) (y : R) :
  (0 < M)%Z ->
  (prec <= Zdigits2 M)%Z ->
  (emin prec emax <= e + Zdigits2 M - prec)%Z ->
  inbetween M l y ->
  exists (m' : positive) (e' : Z),
    binary_round_aux prec emax s M e l =
      (if (e' <=? emax - prec)%Z then S754_finite s m' e' else S754_infinity s) /\
    Z.pos (digits2_pos m') = prec /\
    (emin prec emax <= e')%Z /\
    Rnd (y * bpow e) (F2R (Z.pos m') e').
Proof.
  intros HM Hd Hemin Hy.
  destruct M as [|M|M]; try lia.
  simpl Zdigits2 in *.
  set (d := Z.pos (digits2_pos M)) in *.
  set (n := (d - prec)%Z).
  destruct (digits_bpow M) as [HMl HMu]. fold d in HMl, HMu.
  destruct (inbetween_bounds _ _ _ Hy) as [Hyl Hyu].
  assert (Hyu' : y < bpow d).
  { rewrite bpow_IZR in HMu |- * by lia.
    apply IZR_succ_le in HMu. lra. }
  unfold binary_round_aux, shr_fexp.
  simpl Zdigits2 at 1. fold d.
  rewrite fexp_normal by lia.
  replace (d + e - prec - e)%Z with n by (unfold n; lia).
  destruct (shr_inbetween (shr_record_of_loc (Z.pos M) l) e n y) as (mrs & -> & Hm0 & Hin).
  { unfold n; lia. }
  { rewrite shr_record_of_loc_m. lia. }
  { rewrite shr_record_of_loc_m, loc_of_shr_record_of_loc. assumption. }
  set (y' := y * bpow (- n)) in *.
  assert (Hy' : bpow (prec - 1) <= y' < bpow prec).
  { unfold y'. split.
    - replace (prec - 1)%Z with ((d - 1) + - n)%Z by (unfold n; lia).
      rewrite bpow_plus. pose proof (bpow_gt_0 (- n)). nra.
    - replace (bpow prec) with (bpow (d + - n)) by (f_equal; unfold n; lia).
      rewrite bpow_plus. pose proof (bpow_gt_0 (- n)). nra. }
  destruct (inbetween_bounds _ _ _ Hin) as [Hml Hmu].
  destruct (round_nearest_even_spec _ _ _ Hin) as [[HNl HNu] HNerr].
  set (N := round_nearest_even (shr_m mrs) (loc_of_shr_record mrs)) in *.
  assert (Hmrs : (2 ^ (prec - 1) <= shr_m mrs < 2 ^ prec)%Z).
  { rewrite (bpow_IZR (prec - 1)), (bpow_IZR prec) in Hy' by (unfold prec; lia). split.
    - assert (IZR (2 ^ (prec - 1)) < IZR (shr_m mrs + 1)) by (rewrite plus_IZR; lra).
      apply lt_IZR in H. lia.
    - apply lt_IZR. lra. }
  assert (HRnd : forall m' e', F2R (Z.pos m') e' = F2R N (e + n) ->
                 Rnd (y * bpow e) (F2R (Z.pos m') e')).
  { intros m' e' Heq. exists (d + e)%Z, N. split; [|split].
    - split.
      + replace (d + e - 1)%Z with ((d - 1) + e)%Z by lia.
        rewrite bpow_plus. pose proof (bpow_gt_0 e). nra.
      + rewrite bpow_plus. pose proof (bpow_gt_0 e). nra.
    - rewrite Heq. f_equal. unfold n. lia.
    - replace (y * bpow e * bpow (prec - (d + e))) with y'; [assumption|].
      unfold y'. replace (prec - (d + e))%Z with (- e + - n)%Z by (unfold n; lia).
      rewrite bpow_plus. rewrite Rmult_assoc, <- (Rmult_assoc (bpow e)), bpow_cancel. lra. }
  destruct (Z.eq_dec N (2 ^ prec)%Z) as [HN | HN].
  - (* the mantissa overflows to the next binade *)
    rewrite HN. exists (Z.to_pos (2 ^ (prec - 1))%Z), (e + n + 1)%Z.
    split; [|split; [|split]].
    + change (Zdigits2 (2 ^ prec)%Z) with (prec + 1)%Z.
      rewrite fexp_normal by (unfold n; lia).
      replace (prec + 1 + (e + n) - prec - (e + n))%Z with 1%Z by lia.
      reflexivity.
    + reflexivity.
    + unfold n; lia.
    + apply HRnd. rewrite HN. unfold F2R.
      rewrite (bpow_plus (e + n) 1), bpow_1.
      change (IZR (Z.pos (Z.to_pos (2 ^ (prec - 1))%Z))) with (IZR (2 ^ (prec - 1))%Z).
      replace (IZR (2 ^ prec)%Z) with (2 * IZR (2 ^ (prec - 1))%Z); [lra|].
      rewrite <- mult_IZR. reflexivity.
  - assert (HNpos : (2 ^ (prec - 1) <= N < 2 ^ prec)%Z) by lia.
    destruct N as [|q|q] eqn:EN; try (exfalso; unfold prec in HNpos; lia).
    assert (Hdq : Z.pos (digits2_pos q) = prec).
    { apply digits_unique. rewrite !bpow_IZR by (unfold prec; lia).
      split; [apply IZR_le | apply IZR_lt]; lia. }
    exists q, (e + n)%Z. split; [|split; [|split]].
    + simpl Zdigits2. rewrite Hdq.
      rewrite fexp_normal by (unfold n; lia).
      replace (prec + (e + n) - prec - (e + n))%Z with 0%Z by lia.
      reflexivity.
    + assumption.
    + unfold n; lia.
    + apply HRnd. reflexivity.
Qed.

End RoundAux.

Section RndFacts.
Local Open Scope R_scope.

Lemma ulp_half_val : ulp_half = / IZR (2 ^ prec)%Z.
Proof. unfold ulp_half. rewrite bpow_opp, bpow_IZR by (unfold prec; lia). reflexivity. Qed.

Lemma Rnd_inv v w :
  Rnd v w ->
  exists (k N : Z) (t : R),
    v = t * bpow (k - prec) /\
    w = IZR N * bpow (k - prec) /\
    bpow (k - 1) <= v < bpow k /\
    bpow (prec - 1) <= t < bpow prec /\
    - / 2 <= t - IZR N <= / 2 /\
    (2 ^ (prec - 1) <= N <= 2 ^ prec)%Z.
Proof.
  intros (k & N & [Hvl Hvu] & Hw & Herr).
  exists k, N, (v * bpow (prec - k)).
  assert (Hg : bpow (prec - k) * bpow (k - prec) = 1).
  { rewrite <- bpow_plus. replace (prec - k + (k - prec))%Z with 0%Z by lia. apply bpow_0. }
  pose proof (bpow_gt_0 (prec - k)) as Hgi.
  assert (Ht : bpow (prec - 1) <= v * bpow (prec - k) < bpow prec).
  { split.
    - replace (prec - 1)%Z with ((k - 1) + (prec - k))%Z by lia.
      rewrite bpow_plus. nra.
    - replace (bpow prec) with (bpow (k + (prec - k))) by (f_equal; lia).
      rewrite bpow_plus. nra. }
  split; [rewrite Rmult_assoc, Hg; lra|].
  split; [exact Hw|].
  split; [split; assumption|].
  split; [exact Ht|].
  split; [exact Herr|].
  rewrite (bpow_IZR (prec - 1)), (bpow_IZR prec) in Ht by (unfold prec; lia).
  split.
  - assert (H : IZR (2 ^ (prec - 1) - 1) < IZR N) by (rewrite minus_IZR; lra).
    apply lt_IZR in H. lia.
  - assert (H : IZR N < IZR (2 ^ prec + 1)) by (rewrite plus_IZR; lra).
    apply lt_IZR in H. lia.
Qed.

Lemma Rnd_pos v w : Rnd v w -> 0 < v /\ 0 < w.
Proof.
  intros H. destruct (Rnd_inv _ _ H) as (k & N & t & Hv & Hw & [Hvl Hvu] & Ht & Herr & HN).
  pose proof (bpow_gt_0 (k - 1)). pose proof (bpow_gt_0 (k - prec)).
  split; [lra|]. subst w.
  apply Rmult_lt_0_compat; [|assumption].
  apply IZR_lt. unfold prec in HN. lia.
Qed.

(** The relative error of rounding to nearest is at most [u / (1 + u)]
    for [u = 2^-53]. *)
Lemma Rnd_rel_error v w :
  Rnd v w ->
  (1 + ulp_half) * (w - v) <= ulp_half * v /\
  (1 + ulp_half) * (v - w) <= ulp_half * v.
Proof.
  intros H. destruct (Rnd_inv _ _ H) as (k & N & t & Hv & Hw & _ & Ht & Herr & HN).
  pose proof (bpow_gt_0 (k - prec)) as Hg.
  set (g := bpow (k - prec)) in *.
  rewrite ulp_half_val.
  rewrite (bpow_IZR (prec - 1)), (bpow_IZR prec) in Ht by (unfold prec; lia).
  change (2 ^ (prec - 1))%Z with 4503599627370496%Z in *.
  change (2 ^ prec)%Z with 9007199254740992%Z in *.
  assert (Hcore : (1 + / 9007199254740992) * (IZR N - t) <= / 9007199254740992 * t /\
                  (1 + / 9007199254740992) * (t - IZR N) <= / 9007199254740992 * t).
  { destruct (Rle_lt_dec (4503599627370496 + / 2) t) as [Hc | Hc].
    - split; lra.
    - assert (Hn : N = 4503599627370496%Z).
      { assert (Hlt : IZR N < IZR (4503599627370496 + 1)) by (rewrite plus_IZR; lra).
        apply lt_IZR in Hlt. lia. }
      rewrite Hn. split; lra. }
  destruct Hcore as [H1 H2]. subst v w.
  split; nra.
Qed.
End RndFacts.

Section RndOrder.
Local Open Scope R_scope.

(** A value below the midpoint that follows a normal number does not
    round above that number. *)
Lemma Rnd_le_mid v w (Y E : Z) :
  Rnd v w ->
  (2 ^ (prec - 1) <= Y < 2 ^ prec)%Z ->
  v < (IZR Y + / 2) * bpow E ->
  w <= F2R Y E.
Proof.
  intros H HY Hv.
  destruct (Rnd_inv _ _ H) as (k & N & t & Hvt & Hw & [Hvl Hvu] & Ht & Herr & HN).
  pose proof (bpow_gt_0 E) as HE. pose proof (bpow_gt_0 (k - prec)) as Hg.
  assert (HYR : IZR (2 ^ (prec - 1)) <= IZR Y /\ IZR Y + 1 <= IZR (2 ^ prec)).
  { split; [apply IZR_le; lia|]. rewrite <- plus_IZR. apply IZR_le. lia. }
  rewrite <- !bpow_IZR in HYR by (unfold prec; lia).
  assert (HNR : IZR N <= bpow prec).
  { rewrite bpow_IZR by (unfold prec; lia). apply IZR_le. lia. }
  assert (HkE : (k - prec <= E)%Z).
  { assert (bpow (k - 1) < bpow (prec + E)).
    { rewrite (bpow_plus prec E). nra. }
    apply bpow_lt_inv in H0. lia. }
  unfold F2R. subst w.
  destruct (Z.eq_dec (k - prec)%Z E) as [Heq | Hne].
  - rewrite Heq in *.
    assert (Ht' : t < IZR Y + / 2) by nra.
    assert (HNY : IZR N < IZR (Y + 1)) by (rewrite plus_IZR; lra).
    apply lt_IZR in HNY.
    assert (IZR N <= IZR Y) by (apply IZR_le; lia).
    nra.
  - assert (Hk : bpow k <= bpow (prec - 1 + E)) by (apply bpow_le; lia).
    rewrite (bpow_plus (prec - 1) E) in Hk.
    replace (bpow k) with (bpow prec * bpow (k - prec)) in Hk
      by (rewrite <- bpow_plus; f_equal; lia).
    nra.
Qed.

Lemma Rnd_le v w (Y E : Z) :
  Rnd v w ->
  (2 ^ (prec - 1) <= Y < 2 ^ prec)%Z ->
  v <= F2R Y E ->
  w <= F2R Y E.
Proof.
  intros H HY Hv. apply Rnd_le_mid with (v := v); try assumption.
  unfold F2R in Hv. pose proof (bpow_gt_0 E). nra.
Qed.

Lemma Rnd_ge_bpow v w j : Rnd v w -> bpow j <= v -> bpow j <= w.
Proof.
  intros H Hj.
  destruct (Rnd_inv _ _ H) as (k & N & t & Hvt & Hw & [Hvl Hvu] & Ht & Herr & HN).
  assert (Hjk : (j <= k - 1)%Z).
  { assert (bpow j < bpow k) by lra. apply bpow_lt_inv in H0. lia. }
  apply bpow_le in Hjk.
  replace (bpow (k - 1)) with (bpow (prec - 1) * bpow (k - prec)) in Hjk
    by (rewrite <- bpow_plus; f_equal; lia).
  assert (HNR : bpow (prec - 1) <= IZR N).
  { rewrite bpow_IZR by (unfold prec; lia). apply IZR_le. lia. }
  pose proof (bpow_gt_0 (k - prec)). subst w. nra.
Qed.

End RndOrder.

(** ** Positive normal numbers *)

Section PosNormal.
Local Open Scope R_scope.

Lemma mantissa_range (m : positive) :
  Z.pos (digits2_pos m) = prec ->
  (2 ^ (prec - 1) <= Z.pos m < 2 ^ prec)%Z.
Proof. intros H. rewrite <- H. apply digits2_pos_bounds. Qed.

Lemma mantissa_range_R (m : positive) :
  Z.pos (digits2_pos m) = prec ->
  bpow (prec - 1) <= IZR (Z.pos m) /\ IZR (Z.pos m) + 1 <= bpow prec.
Proof.
  intros H. destruct (mantissa_range m H) as [Hl Hu].
  rewrite !bpow_IZR by (unfold prec; lia).
  split; [apply IZR_le; assumption|].
  rewrite <- plus_IZR. apply IZR_le. lia.
Qed.

Lemma F2R_normal_bounds (m : positive) (e : Z) :
  Z.pos (digits2_pos m) = prec ->
  bpow (prec - 1 + e) <= F2R (Z.pos m) e < bpow (prec + e).
Proof.
  intros H. destruct (mantissa_range_R m H) as [Hl Hu].
  unfold F2R. rewrite !bpow_plus. pose proof (bpow_gt_0 e). split; nra.
Qed.

Lemma pos_normal_valid x v : pos_normal x v -> valid x.
Proof.
  intros (m & e & -> & Hd & He & _).
  unfold valid, valid_binary, bounded, canonical_mantissa.
  rewrite Hd. unfold fexp.
  apply andb_true_intro. split; [apply Z.eqb_eq | apply Z.leb_le]; lia.
Qed.

Lemma pos_normal_gt_0 x v : pos_normal x v -> 0 < v.
Proof.
  intros (m & e & -> & Hd & He & ->).
  destruct (F2R_normal_bounds m e Hd) as [Hl _].
  pose proof (bpow_gt_0 (prec - 1 + e)). lra.
Qed.

Lemma pos_normal_fun x v v' : pos_normal x v -> pos_normal x v' -> v = v'.
Proof.
  intros (m & e & -> & _ & _ & ->) (m' & e' & Heq & _ & _ & ->).
  injection Heq as -> ->. reflexivity.
Qed.

(** Comparison of two positive normal numbers agrees with the order of
    their values. *)
Lemma compare_pos_normal x y vx vy :
  pos_normal x vx -> pos_normal y vy ->
  (SFcompare x y = Some Lt /\ vx < vy) \/
  (SFcompare x y = Some Eq /\ vx = vy) \/
  (SFcompare x y = Some Gt /\ vx > vy).
Proof.
  intros (mx & ex & -> & Hdx & Hex & ->) (my & ey & -> & Hdy & Hey & ->).
  destruct (F2R_normal_bounds mx ex Hdx) as [Hxl Hxu].
  destruct (F2R_normal_bounds my ey Hdy) as [Hyl Hyu].
  simpl SFcompare.
  destruct (Z.compare_spec ex ey) as [Heq | Hlt | Hgt].
  - subst ey. change (Pos.compare_cont Eq mx my) with (Pos.compare mx my).
    pose proof (bpow_gt_0 ex). unfold F2R.
    destruct (Pos.compare_spec mx my) as [Hm | Hm | Hm].
    + right; left. subst my. split; reflexivity.
    + left. split; [reflexivity|].
      assert (IZR (Z.pos mx) < IZR (Z.pos my)) by (apply IZR_lt; lia). nra.
    + right; right. split; [reflexivity|].
      assert (IZR (Z.pos my) < IZR (Z.pos mx)) by (apply IZR_lt; lia). nra.
  - left. split; [reflexivity|].
    assert (bpow (prec + ex) <= bpow (prec - 1 + ey)) by (apply bpow_le; lia). lra.
  - right; right. split; [reflexivity|].
    assert (bpow (prec + ey) <= bpow (prec - 1 + ex)) by (apply bpow_le; lia). lra.
Qed.

Lemma leb_pos_normal x y vx vy :
  pos_normal x vx -> pos_normal y vy -> (leb x y = true <-> vx <= vy).
Proof.
  intros Hx Hy. unfold leb, SFleb.
  destruct (compare_pos_normal x y vx vy Hx Hy) as [[-> H] | [[-> H] | [-> H]]];
    split; intros; try reflexivity; try discriminate; lra.
Qed.

Lemma ltb_pos_normal x y vx vy :
  pos_normal x vx -> pos_normal y vy -> (ltb x y = true <-> vx < vy).
Proof.
  intros Hx Hy. unfold ltb, SFltb.
  destruct (compare_pos_normal x y vx vy Hx Hy) as [[-> H] | [[-> H] | [-> H]]];
    split; intros; try reflexivity; try discriminate; lra.
Qed.

(** A finite valid number at least a positive normal number is itself
    positive and normal. *)
Lemma pos_normal_above c vc x :
  pos_normal c vc -> valid x -> is_finite x = true -> leb c x = true ->
  exists vx, pos_normal x vx /\ vc <= vx.
Proof.
  intros Hc Hv Hf Hle.
  assert (Hn : exists vx, pos_normal x vx).
  { destruct Hc as (mc & ec & -> & Hdc & Hec & _).
    destruct x as [s | s | | s m e]; try discriminate.
    destruct s; [discriminate|].
    unfold valid, valid_binary, bounded, canonical_mantissa, fexp in Hv.
    apply andb_prop in Hv. destruct Hv as [Hcan Hb].
    apply Z.eqb_eq in Hcan. apply Z.leb_le in Hb.
    exists (F2R (Z.pos m) e), m, e.
    split; [reflexivity|]. unfold leb, SFleb in Hle. simpl SFcompare in Hle.
    destruct (Z.compare_spec ec e) as [Heq | Hlt | Hgt]; try discriminate.
    - subst e. change (Pos.compare_cont Eq mc m) with (Pos.compare mc m) in Hle.
      assert (Hm : (Z.pos mc <= Z.pos m)%Z).
      { destruct (Pos.compare_spec mc m); try discriminate; lia. }
      destruct (mantissa_range mc Hdc) as [Hmc _].
      destruct (digits2_pos_bounds m) as [_ Hmu].
      assert (Hd : (prec - 1 < Z.pos (digits2_pos m))%Z).
      { apply (Z.pow_lt_mono_r_iff 2); lia. }
      split; [lia|]. split; [lia|]. reflexivity.
    - split; [lia|]. split; [lia|]. reflexivity. }
  destruct Hn as [vx Hx]. exists vx. split; [assumption|].
  apply (leb_pos_normal c x vc vx Hc Hx). assumption.
Qed.

End PosNormal.

(** ** The arithmetic operations on positive normal numbers *)

Section Operations.
Local Open Scope R_scope.

(** Rounding stays finite when the exact value is bounded by a
    representable number. *)
Lemma round_aux_pos_normal (M e : Z) (l : location) (y : R) b vb :
  (0 < M)%Z ->
  (prec <= Zdigits2 M)%Z ->
  (emin prec emax <= e + Zdigits2 M - prec)%Z ->
  inbetween M l y ->
  pos_normal b vb -> y * bpow e <= vb ->
  exists w, pos_normal (binary_round_aux prec emax false M e l) w /\
            Rnd (y * bpow e) w.
Proof.
  intros HM Hd He Hy (mb & eb & -> & Hdb & Heb & ->) Hb.
  destruct (round_aux_normal false M e l y HM Hd He Hy)
    as (m' & e' & -> & Hd' & He' & HR).
  exists (F2R (Z.pos m') e'). split; [|assumption].
  assert (Hw : F2R (Z.pos m') e' <= F2R (Z.pos mb) eb).
  { apply Rnd_le with (v := y * bpow e); try assumption.
    apply mantissa_range; assumption. }
  destruct (F2R_normal_bounds m' e' Hd') as [Hl _].
  destruct (F2R_normal_bounds mb eb Hdb) as [_ Hu].
  assert (Hlt : bpow (prec - 1 + e') < bpow (prec + eb)) by lra.
  apply bpow_lt_inv in Hlt.
  replace (e' <=? emax - prec)%Z with true by (symmetry; apply Z.leb_le; lia).
  exists m', e'. split; [reflexivity|]. split; [assumption|].
  split; [lia | reflexivity].
Qed.

Lemma digits_ge (m : positive) (k : Z) :
  bpow k <= IZR (Z.pos m) -> (k < Z.pos (digits2_pos m))%Z.
Proof.
  intros H. destruct (digits_bpow m) as [_ Hu].
  apply bpow_lt_inv. lra.
Qed.

Lemma mul_pos_normal x y vx vy b vb :
  pos_normal x vx -> pos_normal y vy ->
  bpow (emin prec emax + prec) <= vx * vy ->
  pos_normal b vb -> vx * vy <= vb ->
  exists w, pos_normal (mul x y) w /\ Rnd (vx * vy) w.
Proof.
  intros (mx & ex & -> & Hdx & Hex & ->) (my & ey & -> & Hdy & Hey & ->) Hlo Hb Hhi.
  unfold mul, SFmul. simpl xorb.
  assert (Hval : F2R (Z.pos mx) ex * F2R (Z.pos my) ey
                 = IZR (Z.pos (mx * my)) * bpow (ex + ey)).
  { unfold F2R. rewrite Pos2Z.inj_mul, mult_IZR, bpow_plus. ring. }
  rewrite Hval in *.
  destruct (mantissa_range_R mx Hdx) as [Hxl _].
  destruct (mantissa_range_R my Hdy) as [Hyl _].
  assert (Hprod : bpow (prec - 1 + (prec - 1)) <= IZR (Z.pos (mx * my))).
  { rewrite Pos2Z.inj_mul, mult_IZR, bpow_plus.
    pose proof (bpow_gt_0 (prec - 1)). nra. }
  apply digits_ge in Hprod.
  destruct (digits_bpow (mx * my)) as [_ Hu].
  assert (Hd : (emin prec emax + prec < Z.pos (digits2_pos (mx * my)) + (ex + ey))%Z).
  { apply bpow_lt_inv. rewrite (bpow_plus _ (ex + ey)).
    pose proof (bpow_gt_0 (ex + ey)). nra. }
  apply round_aux_pos_normal with (b := b) (vb := vb); try assumption.
  - lia.
  - simpl Zdigits2. unfold prec in *. lia.
  - simpl Zdigits2. lia.
  - reflexivity.
Qed.


Lemma iter_xO_pow (m d : positive) :
  Z.pos (Pos.iter xO m d) = (Z.pos m * 2 ^ Z.pos d)%Z.
Proof.
  induction d as [|d IH] using Pos.peano_ind.
  - simpl. lia.
  - rewrite Pos.iter_succ, Pos2Z.inj_xO, IH, Pos2Z.inj_succ, Z.pow_succ_r by lia. ring.
Qed.

Lemma shl_align_spec (mx : positive) (ex ex' : Z) :
  exists (m' : positive) (e' : Z),
    shl_align mx ex ex' = (m', e') /\
    e' = Z.min ex ex' /\
    Z.pos m' = (Z.pos mx * 2 ^ (ex - e'))%Z.
Proof.
  unfold shl_align. destruct (ex' - ex)%Z as [|p|p] eqn:E.
  - exists mx, ex. split; [reflexivity|]. split; [lia|].
    rewrite Z.sub_diag. simpl. lia.
  - exists mx, ex. split; [reflexivity|]. split; [lia|].
    rewrite Z.sub_diag. simpl. lia.
  - exists (Pos.iter xO mx p), ex'. split; [reflexivity|]. split; [lia|].
    rewrite iter_xO_pow. f_equal. f_equal. lia.
Qed.

Lemma binary_round_pos_normal (m : positive) (e : Z) b vb :
  (emin prec emax <= Z.pos (digits2_pos m) + e - prec)%Z ->
  pos_normal b vb -> F2R (Z.pos m) e <= vb ->
  exists w, pos_normal (binary_round prec emax false m e) w /\
            Rnd (F2R (Z.pos m) e) w.
Proof.
  intros He Hb Hhi. unfold binary_round.
  rewrite fexp_normal by assumption.
  destruct (shl_align_spec m e (Z.pos (digits2_pos m) + e - prec))
    as (m' & e' & -> & He' & Hm').
  set (d := Z.pos (digits2_pos m)) in *.
  assert (Hsh : (0 <= e - e')%Z) by lia.
  assert (HmR : IZR (Z.pos m') = IZR (Z.pos m) * bpow (e - e')).
  { rewrite Hm', mult_IZR, bpow_IZR by assumption. reflexivity. }
  assert (Hval : F2R (Z.pos m) e = IZR (Z.pos m') * bpow e').
  { unfold F2R. rewrite HmR, Rmult_assoc, <- bpow_plus. do 2 f_equal. lia. }
  assert (Hd' : Z.pos (digits2_pos m') = (d + (e - e'))%Z).
  { apply digits_unique. rewrite HmR.
    destruct (digits_bpow m) as [Hl Hu]. fold d in Hl, Hu.
    replace (d + (e - e') - 1)%Z with ((d - 1) + (e - e'))%Z by lia.
    rewrite !bpow_plus. pose proof (bpow_gt_0 (e - e')). split; nra. }
  rewrite Hval in *.
  apply round_aux_pos_normal with (b := b) (vb := vb); try assumption.
  - lia.
  - simpl Zdigits2. lia.
  - simpl Zdigits2. lia.
  - reflexivity.
Qed.

Lemma pos_normal_exp_le mx ex my ey :
  Z.pos (digits2_pos mx) = prec -> Z.pos (digits2_pos my) = prec ->
  F2R (Z.pos my) ey < F2R (Z.pos mx) ex -> (ey <= ex)%Z.
Proof.
  intros Hdx Hdy Hlt.
  destruct (F2R_normal_bounds mx ex Hdx) as [_ Hxu].
  destruct (F2R_normal_bounds my ey Hdy) as [Hyl _].
  assert (H : bpow (prec - 1 + ey) < bpow (prec + ex)) by lra.
  apply bpow_lt_inv in H. lia.
Qed.

Lemma sub_pos_normal x y vx vy :
  pos_normal x vx -> pos_normal y vy ->
  vy < vx -> bpow (emin prec emax + 2 * prec) <= vy ->
  exists w, pos_normal (sub x y) w /\ Rnd (vx - vy) w.
Proof.
  intros Hx Hy Hlt Hlo.
  pose proof Hx as (mx & ex & Ex & Hdx & Hex & Evx).
  destruct Hy as (my & ey & -> & Hdy & Hey & ->). subst x vx.
  pose proof (pos_normal_exp_le mx ex my ey Hdx Hdy Hlt) as Hexp.
  unfold sub, SFsub. rewrite Z.min_r by assumption.
  destruct (shl_align_spec mx ex ey) as (m1 & e1 & -> & He1 & Hm1).
  destruct (shl_align_spec my ey ey) as (m2 & e2 & -> & He2 & Hm2).
  simpl fst. simpl cond_Zopp.
  rewrite Z.min_r in He1 by assumption. rewrite Z.min_id in He2. subst e1 e2.
  rewrite Z.sub_diag, Z.pow_0_r, Z.mul_1_r in Hm2.
  assert (Hval : F2R (Z.pos mx) ex - F2R (Z.pos my) ey
                 = IZR (Z.pos m1 - Z.pos m2) * bpow ey).
  { unfold F2R. rewrite minus_IZR, Hm1, Hm2, mult_IZR, <- bpow_IZR by lia.
    replace (bpow ex) with (bpow (ex - ey) * bpow ey)
      by (rewrite <- bpow_plus; f_equal; lia).
    simpl. ring. }
  assert (HD : (0 < Z.pos m1 - Z.pos m2)%Z).
  { apply lt_IZR. pose proof (bpow_gt_0 ey). nra. }
  destruct (Z.pos m1 - Z.pos m2)%Z as [|D|D] eqn:ED; try lia.
  simpl binary_normalize. rewrite Hval.
  destruct (F2R_normal_bounds my ey Hdy) as [_ Hyu].
  assert (Hey' : (emin prec emax + 2 * prec < prec + ey)%Z)
    by (apply bpow_lt_inv; lra).
  apply binary_round_pos_normal with (b := S754_finite false mx ex) (vb := F2R (Z.pos mx) ex).
  - pose proof (Pos2Z.is_pos (digits2_pos D)). unfold prec in *. lia.
  - assumption.
  - change (F2R (Z.pos D) ey) with (IZR (Z.pos D) * bpow ey). rewrite <- Hval.
    assert (0 < F2R (Z.pos my) ey).
    { unfold F2R. apply Rmult_lt_0_compat; [apply IZR_lt; lia | apply bpow_gt_0]. }
    lra.
Qed.


Lemma new_location_inbetween (nb r q : Z) :
  (0 < nb)%Z -> (0 <= r < nb)%Z ->
  inbetween q (new_location nb r) (IZR q + IZR r / IZR nb).
Proof.
  intros Hnb Hr.
  assert (HnbR : 0 < IZR nb) by (apply IZR_lt; assumption).
  set (x := IZR r / IZR nb).
  assert (Hx : x * IZR nb = IZR r) by (unfold x; field; lra).
  assert (Hlo : forall c, c * IZR nb < IZR r -> c < x).
  { intros c Hc. apply Rmult_lt_reg_r with (IZR nb); lra. }
  assert (Hhi : forall c, IZR r < c * IZR nb -> x < c).
  { intros c Hc. apply Rmult_lt_reg_r with (IZR nb); lra. }
  assert (Hx1 : x < 1).
  { apply Hhi. destruct Hr as [_ Hr]. apply IZR_lt in Hr. lra. }
  unfold new_location.
  destruct (Z.even nb) eqn:Hev; unfold new_location_even, new_location_odd;
    (destruct (Z.eqb_spec r 0) as [Hr0 | Hr0];
     [assert (x = 0) by (unfold x; rewrite Hr0; unfold Rdiv; apply Rmult_0_l);
      simpl; lra|]);
    assert (Hrpos : 0 < IZR r) by (apply IZR_lt; lia);
    assert (Hx0 : 0 < x) by (apply Hlo; lra).
    + destruct (Z.compare_spec (2 * r) nb) as [Heq | Hlt | Hgt]; simpl.
      * assert (x = / 2); [|lra].
        apply Rmult_eq_reg_r with (IZR nb); [|lra].
        rewrite Hx, <- Heq, mult_IZR. lra.
      * apply IZR_lt in Hlt. rewrite mult_IZR in Hlt.
        assert (x < / 2) by (apply Hhi; lra). lra.
      * apply IZR_lt in Hgt. rewrite mult_IZR in Hgt.
        assert (/ 2 < x) by (apply Hlo; lra). lra.
    + assert (Hodd : Z.Odd nb).
      { apply Z.odd_spec. rewrite <- Z.negb_even, Hev. reflexivity. }
      destruct Hodd as [j Hj].
      destruct (Z.compare_spec (2 * r + 1) nb) as [Heq | Hlt | Hgt]; simpl.
      * assert (Hlt : (2 * r < nb)%Z) by lia.
        apply IZR_lt in Hlt. rewrite mult_IZR in Hlt.
        assert (x < / 2) by (apply Hhi; lra). lra.
      * assert (Hlt' : (2 * r < nb)%Z) by lia.
        apply IZR_lt in Hlt'. rewrite mult_IZR in Hlt'.
        assert (x < / 2) by (apply Hhi; lra). lra.
      * assert (Hgt' : (nb < 2 * r)%Z) by lia.
        apply IZR_lt in Hgt'. rewrite mult_IZR in Hgt'.
        assert (/ 2 < x) by (apply Hlo; lra). lra.
Qed.

Lemma div_pos_normal x y vx vy b vb :
  pos_normal x vx -> pos_normal y vy ->
  bpow (emin prec emax + prec + 1) <= vx / vy ->
  pos_normal b vb -> vx / vy <= vb ->
  exists w, pos_normal (div x y) w /\ Rnd (vx / vy) w.
Proof.
  intros (mx & ex & -> & Hdx & Hex & ->) (my & ey & -> & Hdy & Hey & ->) Hlo Hb Hhi.
  destruct (F2R_normal_bounds mx ex Hdx) as [Hxl Hxu].
  destruct (F2R_normal_bounds my ey Hdy) as [Hyl Hyu].
  destruct (mantissa_range mx Hdx) as [Hmxl Hmxu].
  destruct (mantissa_range my Hdy) as [Hmyl Hmyu].
  assert (Hypos : 0 < F2R (Z.pos my) ey).
  { pose proof (bpow_gt_0 (prec - 1 + ey)). lra. }
  (* the exponent of the quotient *)
  assert (Hexp : (emin prec emax + prec + 1 < ex - ey + 1)%Z).
  { apply bpow_lt_inv.
    apply Rle_lt_trans with (1 := Hlo).
    apply Rmult_lt_reg_r with (F2R (Z.pos my) ey); [assumption|].
    unfold Rdiv. rewrite Rmult_assoc, Rinv_l, Rmult_1_r by lra.
    replace (ex - ey + 1)%Z with ((prec + ex) + - (prec - 1 + ey))%Z by lia.
    rewrite bpow_plus, bpow_opp.
    pose proof (bpow_gt_0 (prec - 1 + ey)) as Hp.
    pose proof (bpow_gt_0 (prec + ex)) as Hp'.
    assert (Hq : bpow (prec + ex) * / bpow (prec - 1 + ey) * bpow (prec - 1 + ey)
                 = bpow (prec + ex)) by (field; lra).
    pose proof (Rinv_0_lt_compat _ Hp). nra. }
  unfold div, SFdiv, SFdiv_core_binary. simpl xorb. simpl Zdigits2.
  rewrite Hdx, Hdy.
  replace (prec + ex - (prec + ey))%Z with (ex - ey)%Z by lia.
  rewrite fexp_normal by lia.
  rewrite Z.min_l by (unfold prec; lia).
  replace (ex - ey - (ex - ey - prec))%Z with 53%Z by (unfold prec; lia).
  cbv iota.
  rewrite Z.shiftl_mul_pow2 by lia.
  set (m' := (Z.pos mx * 2 ^ 53)%Z).
  pose proof (Z_div_mod m' (Z.pos my) ltac:(lia)) as Hdm.
  destruct (Z.div_eucl m' (Z.pos my)) as [q r]. destruct Hdm as [Hm' Hr].
  assert (Hquot : IZR q + IZR r / IZR (Z.pos my) = IZR m' / IZR (Z.pos my)).
  { rewrite Hm', plus_IZR, mult_IZR. field.
    apply Rgt_not_eq, IZR_lt. lia. }
  assert (Hq : (2 ^ (prec - 1) <= q < 2 ^ (prec + 1))%Z).
  { unfold m', prec in *. split.
    - apply Z.nlt_ge. intros Hc. nia.
    - apply Z.nle_gt. intros Hc. nia. }
  destruct q as [|q|q]; try (exfalso; unfold prec in Hq; lia).
  assert (Hdq : (prec <= Z.pos (digits2_pos q))%Z).
  { destruct (digits2_pos_bounds q) as [_ Hu].
    assert (prec - 1 < Z.pos (digits2_pos q))%Z; [|lia].
    apply (Z.pow_lt_mono_r_iff 2); lia. }
  assert (Hval : F2R (Z.pos mx) ex / F2R (Z.pos my) ey
                 = (IZR (Z.pos q) + IZR r / IZR (Z.pos my)) * bpow (ex - ey - prec)).
  { rewrite Hquot. unfold m', F2R.
    rewrite mult_IZR, <- (bpow_IZR 53) by lia.
    replace (ex - ey - prec)%Z with (ex + - (ey + 53))%Z by (unfold prec; lia).
    rewrite bpow_plus, bpow_opp, bpow_plus.
    pose proof (bpow_gt_0 ey). pose proof (bpow_gt_0 53).
    field. split; [lra|]. split; [lra|]. apply Rgt_not_eq, IZR_lt. lia. }
  rewrite Hval in *.
  apply round_aux_pos_normal with (b := b) (vb := vb); try assumption.
  - lia.
  - simpl Zdigits2. lia.
  - apply new_location_inbetween; lia.
Qed.

End Operations.

(** Powers of two with literal exponents, as rational constants. *)
Section BpowLiterals.
Local Open Scope R_scope.

Lemma bpow_neg_lit (p : positive) : bpow (Z.neg p) = / IZR (Z.pow_pos 2 p).
Proof.
  change (Z.neg p) with (- Z.pos p)%Z.
  rewrite bpow_opp, bpow_IZR by lia. reflexivity.
Qed.

Lemma bpow_pos_lit (p : positive) : bpow (Z.pos p) = IZR (Z.pow_pos 2 p).
Proof. rewrite bpow_IZR by lia. reflexivity. Qed.

End BpowLiterals.

Ltac bpow_lit :=
  repeat match goal with
  | |- context [bpow (Z.neg ?p)] =>
      let c := eval vm_compute in (Z.pow_pos 2 p) in
      rewrite (bpow_neg_lit p); change (Z.pow_pos 2 p) with c
  | |- context [bpow (Z.pos ?p)] =>
      let c := eval vm_compute in (Z.pow_pos 2 p) in
      rewrite (bpow_pos_lit p); change (Z.pow_pos 2 p) with c
  | |- context [bpow 0] => rewrite bpow_0
  end.

(** ** The decline of one business *)

Section Decline.
Local Open Scope R_scope.

Lemma pos_normal_0_3 : pos_normal f_0_3 R_0_3.
Proof. exists 5404319552844595%positive, (-54)%Z. repeat split; vm_compute; congruence. Qed.

Lemma pos_normal_1_0 : pos_normal f_1_0 1.
Proof.
  exists 4503599627370496%positive, (-52)%Z.
  split; [reflexivity|]. split; [reflexivity|].
  split; [vm_compute; split; congruence|].
  unfold F2R. bpow_lit. lra.
Qed.

Lemma pos_normal_70 : pos_normal f_70 70.
Proof.
  exists 4925812092436480%positive, (-46)%Z.
  split; [reflexivity|]. split; [reflexivity|].
  split; [vm_compute; split; congruence|].
  unfold F2R. bpow_lit. lra.
Qed.

Lemma pos_normal_100 : pos_normal f_100 100.
Proof.
  exists 7036874417766400%positive, (-46)%Z.
  split; [reflexivity|]. split; [reflexivity|].
  split; [vm_compute; split; congruence|].
  unfold F2R. bpow_lit. lra.
Qed.

Lemma pos_normal_lt_1 x v : pos_normal x v -> v < 1 -> v <= 1 - ulp_half.
Proof.
  intros (m & e & -> & Hd & He & ->) Hlt.
  destruct (F2R_normal_bounds m e Hd) as [Hl Hu].
  assert (He' : (prec - 1 + e < 0)%Z).
  { apply bpow_lt_inv. rewrite bpow_0. lra. }
  destruct (mantissa_range_R m Hd) as [_ Hm].
  assert (Hb : bpow e <= bpow (- prec)) by (apply bpow_le; lia).
  pose proof (bpow_gt_0 e) as Hpos.
  assert (Hc : bpow prec * bpow (- prec) = 1) by apply bpow_cancel.
  unfold F2R, ulp_half.
  assert (IZR (Z.pos m) * bpow e <= (bpow prec - 1) * bpow (- prec)); [|lra].
  assert (0 < IZR (Z.pos m)) by (apply IZR_lt; lia).
  apply Rmult_le_compat; lra.
Qed.

(** Error analysis over the reals: [w1] rounds [p * dv], [w2] rounds
    [p - w1], both with relative error at most [u / (1 + u)]. *)
Lemma decline_real_analysis (u p dv d0 w1 w2 : R) :
  0 < u -> u <= / 2 -> 0 < p -> 0 < d0 -> d0 <= dv -> dv <= 1 - u ->
  (1 + u) * (w1 - p * dv) <= u * (p * dv) ->
  (1 + u) * (p * dv - w1) <= u * (p * dv) ->
  (1 + u) * (w2 - (p - w1)) <= u * (p - w1) ->
  (1 + u) * ((p - w1) - w2) <= u * (p - w1) ->
  w1 < p /\ p * d0 <= (1 + u) * w1 /\
  w2 < p * (1 - d0 + u) /\ p * (u * u) <= 2 * w2.
Proof.
  intros Hu Hu2 Hp Hd0 Hdl Hdu E1 E2 E3 E4.
  assert (H1 : p * d0 <= p * dv) by nra.
  assert (H2 : p * dv <= p * (1 - u)) by nra.
  assert (H3 : (1 + u) * w1 <= (1 + 2 * u) * (p * dv)) by lra.
  assert (H4 : (1 + 2 * u) * (p * dv) <= (1 + 2 * u) * (p * (1 - u))) by nra.
  assert (H5 : 2 * (u * u) * p <= (1 + u) * (p - w1)) by nra.
  assert (Huu : 0 < u * u) by nra.
  assert (Hw1 : w1 < p) by nra.
  assert (H6 : p * dv <= (1 + u) * w1) by lra.
  assert (H7 : (1 + u) * (p - w1) <= p * (1 - d0 + u)) by nra.
  assert (H8 : (1 + u) * w2 <= (1 + 2 * u) * (p - w1)) by lra.
  assert (H9 : p - w1 <= (1 + u) * w2) by lra.
  assert (HT : 0 < p * (1 - d0 + u)) by nra.
  split; [assumption|]. split; [lra|]. split.
  - assert ((1 + u) * ((1 + u) * w2) <= (1 + 2 * u) * (p * (1 - d0 + u))) by nra.
    assert ((1 + 2 * u) * (p * (1 - d0 + u)) < (1 + u) * (1 + u) * (p * (1 - d0 + u))) by nra.
    nra.
  - assert (2 * (u * u) * p <= (1 + u) * ((1 + u) * w2)) by nra.
    nra.
Qed.


Lemma Rnd_le_pos_normal v w b vb :
  Rnd v w -> pos_normal b vb -> v <= vb -> w <= vb.
Proof.
  intros HR (m & e & -> & Hd & He & ->) Hv.
  apply Rnd_le with (v := v); try assumption.
  apply mantissa_range; assumption.
Qed.

Lemma ulp_half_bounds : 0 < ulp_half /\ ulp_half <= / 2.
Proof. rewrite ulp_half_val. change (2 ^ prec)%Z with 9007199254740992%Z. lra. Qed.

(** The four operations of the decline of one business stay in the
    normal range, and the result is at most 70. *)
Lemma decline_chain pre d p dv :
  pos_normal pre p -> 100 <= p ->
  pos_normal d dv -> R_0_3 <= dv -> dv < 1 ->
  exists w1 w2 w3 w4,
    pos_normal (mul pre d) w1 /\ Rnd (p * dv) w1 /\ w1 < p /\
    pos_normal (sub pre (mul pre d)) w2 /\
    pos_normal (div (sub pre (mul pre d)) pre) w3 /\
    pos_normal (mul (div (sub pre (mul pre d)) pre) f_100) w4 /\
    bpow (-107) <= w4 /\
    w4 <= 70.
Proof.
  intros Hpre Hp Hd Hdl Hdu.
  pose proof (pos_normal_lt_1 d dv Hd Hdu) as Hdu'.
  destruct ulp_half_bounds as [Hu0 Hu2].
  assert (Hd0 : / 4 <= R_0_3 /\ R_0_3 <= / 2).
  { unfold R_0_3, F2R. bpow_lit. lra. }
  (* post = pre * drop *)
  destruct (mul_pos_normal pre d p dv pre p Hpre Hd) as (w1 & Hw1 & R1).
  { apply Rle_trans with (bpow 0); [apply bpow_le; unfold emin, prec, emax; lia|].
    rewrite bpow_0. nra. }
  { assumption. }
  { nra. }
  destruct (Rnd_rel_error _ _ R1) as [E1 E2].
  (* pre - post *)
  assert (Hw1lo : bpow 0 <= w1).
  { apply (Rnd_ge_bpow _ _ 0 R1). rewrite bpow_0. nra. }
  rewrite bpow_0 in Hw1lo.
  assert (Hw1p : w1 < p).
  { assert (p * dv <= p * (1 - ulp_half)) by nra.
    assert (0 < ulp_half * ulp_half) by nra. nra. }
  destruct (sub_pos_normal pre (mul pre d) p w1 Hpre Hw1 Hw1p) as (w2 & Hw2 & R2).
  { apply Rle_trans with (bpow 0); [apply bpow_le; unfold emin, prec, emax; lia|].
    rewrite bpow_0. lra. }
  destruct (Rnd_rel_error _ _ R2) as [E3 E4].
  destruct (decline_real_analysis ulp_half p dv R_0_3 w1 w2) as (_ & Hw1d & Hw2T & Hw2lo);
    try assumption; try lra.
  (* (pre - post) / pre *)
  assert (Hppos : 0 < p) by lra.
  assert (Hq_lo : bpow (-107) <= w2 / p).
  { apply Rmult_le_reg_r with p; [assumption|].
    unfold Rdiv. rewrite Rmult_assoc, Rinv_l, Rmult_1_r by lra.
    replace (bpow (-107)) with (ulp_half * ulp_half / 2).
    - nra.
    - rewrite ulp_half_val. change (2 ^ prec)%Z with 9007199254740992%Z.
      bpow_lit. lra. }
  assert (Hq_hi : w2 / p < 1 - R_0_3 + ulp_half).
  { apply Rmult_lt_reg_r with p; [assumption|].
    unfold Rdiv. rewrite Rmult_assoc, Rinv_l, Rmult_1_r by lra. lra. }
  destruct (div_pos_normal (sub pre (mul pre d)) pre w2 p f_1_0 1 Hw2 Hpre)
    as (w3 & Hw3 & R3).
  { apply Rle_trans with (bpow (-107)); [apply bpow_le; unfold emin, prec, emax; lia|].
    assumption. }
  { apply pos_normal_1_0. }
  { assert (w2 <= p) by (apply (Rnd_le_pos_normal _ _ pre p R2 Hpre); lra).
    apply Rmult_le_reg_r with p; [assumption|].
    unfold Rdiv. rewrite Rmult_assoc, Rinv_l, Rmult_1_r by lra. lra. }
  assert (Hw3hi : w3 <= F2R 6305039478318695 (-53)).
  { apply (Rnd_le_mid _ _ _ _ R3); [unfold prec; lia|].
    apply Rlt_le_trans with (1 := Hq_hi).
    rewrite ulp_half_val. change (2 ^ prec)%Z with 9007199254740992%Z.
    unfold R_0_3, F2R. bpow_lit. lra. }
  assert (Hw3lo : bpow (-107) <= w3) by (apply (Rnd_ge_bpow _ _ _ R3); assumption).
  (* ... * 100 *)
  assert (Hq1 : F2R 6305039478318695 (-53) * 100 < (IZR 4925812092436480 + / 2) * bpow (-46)).
  { unfold F2R. bpow_lit. lra. }
  pose proof (bpow_gt_0 (-107)) as Hpos107.
  destruct (mul_pos_normal (div (sub pre (mul pre d)) pre) f_100 w3 100 f_100 100 Hw3)
    as (w4 & Hw4 & R4).
  { apply pos_normal_100. }
  { apply Rle_trans with (bpow (-107)); [apply bpow_le; unfold emin, prec, emax; lia|].
    lra. }
  { apply pos_normal_100. }
  { assert (F2R 6305039478318695 (-53) <= 1) by (unfold F2R; bpow_lit; lra). nra. }
  assert (Hw4hi : w4 <= F2R 4925812092436480 (-46)).
  { apply (Rnd_le_mid _ _ _ _ R4); [unfold prec; lia|]. nra. }
  assert (Hw4lo : bpow (-107) <= w4) by (apply (Rnd_ge_bpow _ _ _ R4); lra).
  exists w1, w2, w3, w4.
  repeat (split; [assumption|]).
  replace 70 with (F2R 4925812092436480 (-46)); [assumption|].
  unfold F2R. bpow_lit. lra.
Qed.

End Decline.

Section Addition.
Local Open Scope R_scope.

(** A value at least a normal number does not round below it. *)
Lemma Rnd_ge v w (Y E : Z) :
  Rnd v w ->
  (2 ^ (prec - 1) <= Y < 2 ^ prec)%Z ->
  F2R Y E <= v ->
  F2R Y E <= w.
Proof.
  intros H HY Hv.
  destruct (Rnd_inv _ _ H) as (k & N & t & Hvt & Hw & [Hvl Hvu] & Ht & Herr & HN).
  pose proof (bpow_gt_0 E) as HE. pose proof (bpow_gt_0 (k - prec)) as Hg.
  assert (HYR : IZR (2 ^ (prec - 1)) <= IZR Y /\ IZR Y + 1 <= IZR (2 ^ prec)).
  { split; [apply IZR_le; lia|]. rewrite <- plus_IZR. apply IZR_le. lia. }
  rewrite <- !bpow_IZR in HYR by (unfold prec; lia).
  assert (HNR : bpow (prec - 1) <= IZR N).
  { rewrite bpow_IZR by (unfold prec; lia). apply IZR_le. lia. }
  unfold F2R in *.
  assert (HkE : (E <= k - prec)%Z).
  { assert (bpow (prec - 1 + E) < bpow k).
    { rewrite (bpow_plus (prec - 1) E). nra. }
    apply bpow_lt_inv in H0. lia. }
  subst w.
  destruct (Z.eq_dec (k - prec)%Z E) as [Heq | Hne].
  - rewrite Heq in *.
    assert (Ht' : IZR Y <= t) by nra.
    assert (HNY : IZR (Y - 1) < IZR N) by (rewrite minus_IZR; lra).
    apply lt_IZR in HNY.
    assert (IZR Y <= IZR N) by (apply IZR_le; lia).
    nra.
  - assert (Hk : bpow (prec + E) <= bpow (k - 1)) by (apply bpow_le; lia).
    rewrite (bpow_plus prec E) in Hk.
    replace (bpow (k - 1)) with (bpow (prec - 1) * bpow (k - prec)) in Hk
      by (rewrite <- bpow_plus; f_equal; lia).
    nra.
Qed.

Lemma Rnd_ge_pos_normal v w b vb :
  Rnd v w -> pos_normal b vb -> vb <= v -> vb <= w.
Proof.
  intros HR (m & e & -> & Hd & He & ->) Hv.
  apply Rnd_ge with (v := v); try assumption.
  apply mantissa_range; assumption.
Qed.

Lemma add_pos_normal x y vx vy b vb :
  pos_normal x vx -> pos_normal y vy ->
  pos_normal b vb -> vx + vy <= vb ->
  exists w, pos_normal (add x y) w /\ Rnd (vx + vy) w.
Proof.
  intros (mx & ex & -> & Hdx & Hex & ->) (my & ey & -> & Hdy & Hey & ->) Hb Hhi.
  unfold add, SFadd.
  destruct (shl_align_spec mx ex (Z.min ex ey)) as (m1 & e1 & -> & He1 & Hm1).
  destruct (shl_align_spec my ey (Z.min ex ey)) as (m2 & e2 & -> & He2 & Hm2).
  simpl fst. simpl cond_Zopp.
  replace (Z.min ex (Z.min ex ey)) with (Z.min ex ey) in He1 by lia.
  replace (Z.min ey (Z.min ex ey)) with (Z.min ex ey) in He2 by lia.
  subst e1 e2. set (ez := Z.min ex ey) in *.
  assert (Hval : F2R (Z.pos mx) ex + F2R (Z.pos my) ey
                 = IZR (Z.pos (m1 + m2)) * bpow ez).
  { unfold F2R. rewrite Pos2Z.inj_add, plus_IZR, Hm1, Hm2, !mult_IZR.
    rewrite <- !bpow_IZR by (unfold ez; lia).
    replace (bpow ex) with (bpow (ex - ez) * bpow ez)
      by (rewrite <- bpow_plus; f_equal; lia).
    replace (bpow ey) with (bpow (ey - ez) * bpow ez)
      by (rewrite <- bpow_plus; f_equal; lia).
    ring. }
  change (Z.pos m1 + Z.pos m2)%Z with (Z.pos (m1 + m2)).
  simpl binary_normalize. rewrite Hval in *.
  destruct (F2R_normal_bounds mx ex Hdx) as [Hxl _].
  assert (Hypos : 0 < F2R (Z.pos my) ey).
  { unfold F2R. apply Rmult_lt_0_compat; [apply IZR_lt; lia | apply bpow_gt_0]. }
  destruct (digits_bpow (m1 + m2)) as [_ Hu].
  assert (Hd : (prec - 1 + ex < Z.pos (digits2_pos (m1 + m2)) + ez)%Z).
  { apply bpow_lt_inv. rewrite (bpow_plus _ ez).
    pose proof (bpow_gt_0 ez). nra. }
  apply binary_round_pos_normal with (b := b) (vb := vb).
  - lia.
  - assumption.
  - assumption.
Qed.

End Addition.

(** ** The uniform deviates of the script *)

Section UniformRange.
Local Open Scope R_scope.

Lemma pos_normal_0_7 : pos_normal f_0_7 (F2R 6305039478318694 (-53)).
Proof.
  exists 6305039478318694%positive, (-53)%Z. repeat split; vm_compute; congruence.
Qed.

Lemma pos_normal_2m53 : pos_normal f_2m53 (bpow (-53)).
Proof.
  exists 4503599627370496%positive, (-105)%Z.
  split; [reflexivity|]. split; [reflexivity|].
  split; [vm_compute; split; congruence|].
  unfold F2R. bpow_lit. lra.
Qed.

(** [0.3 + 0.7 * u] for [u] in the half-open unit interval stays in
    the half-open interval from 0.3 to 1.0: the upper end is not
    reached after rounding. *)
Lemma uniform_0_3_1_0 u :
  unit_sample u ->
  exists vd, pos_normal (add f_0_3 (mul (sub f_1_0 f_0_3) u)) vd /\
             R_0_3 <= vd /\ vd < 1.
Proof.
  intros (Hv & [-> | [Hlo Hhi]]).
  - exists R_0_3. split; [apply pos_normal_0_3|].
    unfold R_0_3, F2R. bpow_lit. lra.
  - change (sub f_1_0 f_0_3) with f_0_7.
    assert (Hf : is_finite u = true).
    { destruct u as [s | [|] | | s m e]; try reflexivity; discriminate. }
    destruct (pos_normal_above f_2m53 _ u pos_normal_2m53 Hv Hf Hlo) as (vu & Hu & Hul).
    assert (Hu1 : vu < 1)
      by (apply (ltb_pos_normal u f_1_0 vu 1 Hu pos_normal_1_0); assumption).
    pose proof (pos_normal_lt_1 u vu Hu Hu1) as Hu1'.
    destruct ulp_half_bounds as [Hh0 Hh2].
    set (r7 := F2R 6305039478318694 (-53)) in *.
    assert (Hr7 : r7 = 6305039478318694 / 9007199254740992).
    { unfold r7, F2R. bpow_lit. lra. }
    assert (Hul' : / 9007199254740992 <= vu).
    { revert Hul. bpow_lit. tauto. }
    destruct (mul_pos_normal f_0_7 u r7 vu f_0_7 r7 pos_normal_0_7 Hu)
      as (w & Hw & RW).
    { apply Rle_trans with (bpow (-54)); [apply bpow_le; unfold emin, prec, emax; lia|].
      bpow_lit. rewrite Hr7. nra. }
    { apply pos_normal_0_7. }
    { rewrite Hr7 in *. nra. }
    destruct (Rnd_rel_error _ _ RW) as [E1 _].
    destruct (Rnd_pos _ _ RW) as [_ Hwpos].
    assert (Hw7 : w < r7).
    { assert (r7 * vu <= r7 * (1 - ulp_half)) by (rewrite Hr7 in *; nra).
      assert (0 < ulp_half * ulp_half) by nra.
      assert (0 < r7) by (rewrite Hr7; lra). nra. }
    destruct (add_pos_normal f_0_3 (mul f_0_7 u) R_0_3 w f_1_0 1 pos_normal_0_3 Hw
                pos_normal_1_0) as (vd & Hd & RD).
    { unfold R_0_3, F2R in *. rewrite Hr7 in Hw7. revert Hw7. bpow_lit. lra. }
    exists vd. split; [assumption|]. split.
    + apply (Rnd_ge_pos_normal _ _ f_0_3 R_0_3 RD pos_normal_0_3). lra.
    + assert (vd <= F2R 9007199254740991 (-53)).
      { apply (Rnd_le_mid _ _ _ _ RD); [unfold prec; lia|].
        unfold R_0_3, F2R in *. rewrite Hr7 in Hw7. revert Hw7. bpow_lit. lra. }
      revert H. unfold F2R. bpow_lit. lra.
Qed.

End UniformRange.

(** * The script: what a run computes *)

Section ScriptFacts.

Context {RS : RandomState}.

Lemma sector_batch_length n g : length (sector_batch n g) = n.
Proof. unfold sector_batch. rewrite length_fmap. apply rs_randint_length. Qed.

Lemma normal_batch_length n g : length (normal_batch n g) = n.
Proof. apply rs_normal_length. Qed.

Lemma uniform_batch_length n g : length (uniform_batch n g) = n.
Proof. unfold uniform_batch. rewrite length_fmap. apply rs_random_sample_length. Qed.

Lemma simulated_from_lengths n g :
  let s := simulated_from n g in
  length (business_ids s) = n /\
  length (business_sectors s) = n /\
  length (pre_covid_revenue s) = n /\
  length (drop_factors s) = n /\
  length (post_covid_revenue s) = n.
Proof.
  simpl. rewrite length_seqZ, length_zip_with, !length_fmap.
  rewrite sector_batch_length, normal_batch_length, uniform_batch_length.
  repeat split; lia.
Qed.

(** The simulation never raises; it returns the three batches drawn in
    the order sector, normal, uniform and leaves files and trace alone. *)
Lemma simulate_spec n w :
  simulate n w =
    Ok (simulated_from n (w_rng w),
        {| w_rng := rng_after n (w_rng w);
           w_fs := w_fs w; w_events := w_events w |}).
Proof.
  unfold simulate, np_random_choice, np_random_normal,
    np_random_uniform, draw, ret, lift, np_multiply, np_binop, np_clip_min,
    np_arange, bind.
  cbn [sectors w_rng w_fs w_events fst snd].
  fold sectors.
  rewrite !length_fmap, rs_normal_length, rs_random_sample_length, Nat.eqb_refl.
  unfold simulated_from, sector_batch, normal_batch, uniform_batch, rng_after.
  replace (Z.of_nat n + 1 - 1) with (Z.of_nat n) by lia.
  reflexivity.
Qed.

Lemma dataset_spec n w :
  dataset n w =
    Ok (table_of (simulated_from n (w_rng w)),
        {| w_rng := rng_after n (w_rng w);
           w_fs := w_fs w; w_events := w_events w |}).
Proof.
  unfold dataset, bind. rewrite simulate_spec.
  destruct (simulated_from_lengths n (w_rng w)) as (H1 & H2 & H3 & H4 & H5).
  set (s := simulated_from n (w_rng w)) in *.
  unfold make_frame, lift, pd_DataFrame.
  cbn [forallb snd]. unfold column_length, column_cells.
  rewrite !length_fmap, H1, H2, H3, H5, Nat.eqb_refl. cbn [andb].
  unfold derive, float_column, lift, df_getitem, df_setitem, ret, bind.
  cbn [df_columns df_nrows assoc String.eqb Ascii.eqb Bool.eqb set_assoc].
  unfold column_length, column_cells, decline_of, series_scale, series_binop.
  rewrite !length_fmap, !length_zip_with, H3, H5.
  replace ((n `min` n) `min` n)%nat with n by lia.
  rewrite Nat.eqb_refl.
  unfold table_of, decline_of, series_scale, series_binop. rewrite H1.
  reflexivity.
Qed.

End ScriptFacts.

(** * The simulated records *)

Section RecordFacts.

Context {RS : RandomState}.
Local Open Scope R_scope.

(** The clamp yields a positive normal number of value at least 100. *)
Lemma maximum_100_pos_normal r :
  valid r -> is_finite r = true ->
  exists vp, pos_normal (np_maximum r f_100) vp /\ 100 <= vp.
Proof.
  intros Hv Hf. unfold np_maximum.
  replace (is_nan r) with false by (destruct r; try reflexivity; discriminate).
  cbn [orb]. destruct (leb f_100 r) eqn:Hle.
  - apply (pos_normal_above f_100 100 r pos_normal_100 Hv Hf Hle).
  - exists 100. split; [apply pos_normal_100 | lra].
Qed.

Lemma pre_lookup n g i p :
  pre_covid_revenue (simulated_from n g) !! i = Some p ->
  exists r, normal_batch n g !! i = Some r /\ p = np_maximum r f_100 /\
            valid r /\ is_finite r = true.
Proof.
  simpl. rewrite list_lookup_fmap. intros H.
  destruct (normal_batch n g !! i) as [r|] eqn:Hr; [|discriminate].
  injection H as <-. exists r. split; [reflexivity|]. split; [reflexivity|].
  apply (rs_normal_finite f_500 f_150 n (snd (rs_randint (length sectors) n g)));
    [split; reflexivity | split; reflexivity |].
  apply list_elem_of_lookup. exists i. exact Hr.
Qed.

Lemma pre_pos_normal n g i p :
  pre_covid_revenue (simulated_from n g) !! i = Some p ->
  exists vp, pos_normal p vp /\ 100 <= vp.
Proof.
  intros H. destruct (pre_lookup n g i p H) as (r & _ & -> & Hv & Hf).
  apply maximum_100_pos_normal; assumption.
Qed.

Lemma drop_pos_normal n g i d :
  drop_factors (simulated_from n g) !! i = Some d ->
  exists vd, pos_normal d vd /\ R_0_3 <= vd /\ vd < 1.
Proof.
  simpl. unfold uniform_batch. rewrite list_lookup_fmap. intros H.
  match type of H with context [?l !! i] => destruct (l !! i) as [u|] eqn:Hu end;
    [|discriminate].
  injection H as <-.
  apply uniform_0_3_1_0.
  apply (rs_random_sample_range n
           (snd (rs_normal f_500 f_150 n (snd (rs_randint (length sectors) n g))))).
  apply list_elem_of_lookup. exists i. exact Hu.
Qed.

Lemma post_lookup n g i q :
  post_covid_revenue (simulated_from n g) !! i = Some q <->
  exists p d, pre_covid_revenue (simulated_from n g) !! i = Some p /\
              drop_factors (simulated_from n g) !! i = Some d /\
              q = mul p d.
Proof.
  simpl. rewrite lookup_zip_with_Some. split.
  - intros (p & d & -> & Hp & Hd). exists p, d. auto.
  - intros (p & d & Hp & Hd & ->). exists p, d. auto.
Qed.

Lemma decline_lookup (pre post : list float) i x :
  decline_of pre post !! i = Some x <->
  exists p q, pre !! i = Some p /\ post !! i = Some q /\
              x = mul (div (sub p q) p) f_100.
Proof.
  unfold decline_of, series_scale, series_binop.
  rewrite list_lookup_fmap. split.
  - intros H.
    destruct (zip_with div (zip_with sub pre post) pre !! i) as [y|] eqn:Hy;
      [|discriminate].
    injection H as <-.
    apply lookup_zip_with_Some in Hy. destruct Hy as (z & p & -> & Hz & Hp).
    apply lookup_zip_with_Some in Hz. destruct Hz as (p' & q & -> & Hp' & Hq).
    rewrite Hp in Hp'. injection Hp' as <-.
    exists p, q. auto.
  - intros (p & q & Hp & Hq & ->).
    assert (Hz : zip_with sub pre post !! i = Some (sub p q)).
    { apply lookup_zip_with_Some. exists p, q. auto. }
    assert (Hy : zip_with div (zip_with sub pre post) pre !! i = Some (div (sub p q) p)).
    { apply lookup_zip_with_Some. exists (sub p q), p. auto. }
    rewrite Hy. reflexivity.
Qed.

(** Everything known about the row [i] of a simulation. *)
Lemma record_chain n g i p d :
  pre_covid_revenue (simulated_from n g) !! i = Some p ->
  drop_factors (simulated_from n g) !! i = Some d ->
  exists vp vd w1 w2 w3 w4,
    pos_normal p vp /\ 100 <= vp /\
    pos_normal d vd /\ R_0_3 <= vd /\ vd < 1 /\
    pos_normal (mul p d) w1 /\ Rnd (vp * vd) w1 /\ w1 < vp /\
    pos_normal (sub p (mul p d)) w2 /\
    pos_normal (div (sub p (mul p d)) p) w3 /\
    pos_normal (mul (div (sub p (mul p d)) p) f_100) w4 /\
    bpow (-107) <= w4 /\
    w4 <= 70.
Proof.
  intros Hp Hd.
  destruct (pre_pos_normal n g i p Hp) as (vp & Hpn & Hp100).
  destruct (drop_pos_normal n g i d Hd) as (vd & Hdn & Hdl & Hdu).
  destruct (decline_chain p d vp vd Hpn Hp100 Hdn Hdl Hdu)
    as (w1 & w2 & w3 & w4 & H1 & HR & Hlt & H2 & H3 & H4 & Hlo & H70).
  exists vp, vd, w1, w2, w3, w4. repeat (split; [assumption|]). assumption.
Qed.

(** Every simulated sector is one of the five categories. *)
Lemma sector_batch_in_sectors n g k :
  k ∈ sector_batch n g -> k ∈ sectors.
Proof.
  unfold sector_batch. intros H.
  apply list_elem_of_fmap in H. destruct H as (i & -> & Hi).
  apply rs_randint_bound in Hi; [|simpl; lia].
  apply list_elem_of_In, nth_In. exact Hi.
Qed.

Lemma pos_normal_is_finite x v : pos_normal x v -> is_finite x = true.
Proof. intros (m & e & -> & _). reflexivity. Qed.

Lemma pos_normal_gt_zero x v : pos_normal x v -> ltb zero x = true.
Proof. intros (m & e & -> & _). reflexivity. Qed.

Lemma pos_normal_not_zero x v : pos_normal x v -> eqb x zero = false.
Proof. intros (m & e & -> & _). reflexivity. Qed.

End RecordFacts.

(** * Properties of the simulation and of the derived metric *)

Section Claims.

Context {RS : RandomState}.
Local Open Scope R_scope.

Lemma table_decline s :
  df_getitem (table_of s) "decline_percent"
  = Ok (FloatCol (decline_of (pre_covid_revenue s) (post_covid_revenue s))).
Proof. reflexivity. Qed.

Lemma table_pre s :
  df_getitem (table_of s) "pre_covid_revenue" = Ok (FloatCol (pre_covid_revenue s)).
Proof. reflexivity. Qed.

Lemma table_post s :
  df_getitem (table_of s) "post_covid_revenue" = Ok (FloatCol (post_covid_revenue s)).
Proof. reflexivity. Qed.

Lemma table_sector s :
  df_getitem (table_of s) "sector" = Ok (StrCol (business_sectors s)).
Proof. reflexivity. Qed.

(** One row of the table of a run, with the real values behind it. *)
Lemma row_analysis n g i p q :
  pre_covid_revenue (simulated_from n g) !! i = Some p ->
  post_covid_revenue (simulated_from n g) !! i = Some q ->
  exists vp vq w4,
    pos_normal p vp /\ 100 <= vp /\ pos_normal q vq /\ vq < vp /\
    (exists w3, pos_normal (div (sub p q) p) w3) /\
    pos_normal (mul (div (sub p q) p) f_100) w4 /\
    bpow (-107) <= w4 /\ w4 <= 70.
Proof.
  intros Hp Hq. apply post_lookup in Hq. destruct Hq as (p' & d & Hp' & Hd & ->).
  rewrite Hp in Hp'. injection Hp' as <-.
  destruct (record_chain n g i p d Hp Hd)
    as (vp & vd & w1 & w2 & w3 & w4 & H).
  decompose [and] H. exists vp, w1, w4.
  repeat (split; [assumption|]). split; [exists w3; assumption|].
  repeat (split; [assumption|]). assumption.
Qed.

(** C1: for every record of the generated table, [decline_percent] lies
    in the closed interval from 0 to 70. *)
Theorem decline_percent_in_0_70 n w df w' col x :
  dataset n w = Ok (df, w') ->
  df_getitem df "decline_percent" = Ok (FloatCol col) ->
  x ∈ col ->
  leb zero x = true /\ leb x f_70 = true.
Proof.
  intros Hrun Hcol Hx. rewrite dataset_spec in Hrun. injection Hrun as <- _.
  rewrite table_decline in Hcol. injection Hcol as <-.
  apply list_elem_of_lookup in Hx. destruct Hx as [i Hi].
  apply decline_lookup in Hi. destruct Hi as (p & q & Hp & Hq & ->).
  destruct (row_analysis n _ i p q Hp Hq) as (vp & vq & w4 & _ & _ & _ & _ & _ & H4 & _ & H70).
  split.
  - destruct H4 as (m & e & -> & _). reflexivity.
  - apply (leb_pos_normal _ f_70 w4 70 H4 pos_normal_70). assumption.
Qed.

(** C2: the post-shock revenue of every record is the binary64 product
    of its pre-shock revenue and its drop factor, which differs from
    the exact product by at most the unit roundoff. *)
Theorem post_is_pre_times_drop n w s w' i p d :
  simulate n w = Ok (s, w') ->
  pre_covid_revenue s !! i = Some p ->
  drop_factors s !! i = Some d ->
  post_covid_revenue s !! i = Some (mul p d) /\
  length (post_covid_revenue s) = n /\
  exists vp vd vq,
    pos_normal p vp /\ pos_normal d vd /\ pos_normal (mul p d) vq /\
    Rabs (vq - vp * vd) <= ulp_half * (vp * vd).
Proof.
  intros Hrun Hp Hd. rewrite simulate_spec in Hrun. injection Hrun as <- _.
  split; [apply post_lookup; exists p, d; auto|].
  split; [apply simulated_from_lengths|].
  destruct (record_chain n _ i p d Hp Hd)
    as (vp & vd & w1 & w2 & w3 & w4 & H).
  decompose [and] H. exists vp, vd, w1.
  repeat (split; [assumption|]).
  match goal with HR : Rnd _ _ |- _ =>
    destruct (Rnd_rel_error _ _ HR) as [E1 E2];
    destruct (Rnd_pos _ _ HR) as [Hv _] end.
  destruct ulp_half_bounds as [Hu _].
  apply Rabs_le. split; nra.
Qed.

(** Comparison is antisymmetric. *)
Lemma SFcompare_antisym x y c :
  SFcompare x y = Some c -> SFcompare y x = Some (CompOpp c).
Proof.
  destruct x as [sx | sx | | sx mx ex], y as [sy | sy | | sy my ey];
    simpl; try discriminate;
    try (intros H; injection H as <-;
         repeat match goal with b : bool |- _ => destruct b end; reflexivity).
  intros H. injection H as <-.
  rewrite (Z.compare_antisym ex ey).
  change (Pos.compare_cont Eq my mx) with (Pos.compare my mx).
  change (Pos.compare_cont Eq mx my) with (Pos.compare mx my).
  rewrite (Pos.compare_antisym mx my).
  destruct sx, sy; try reflexivity;
    destruct (ex ?= ey)%Z; simpl; try reflexivity;
    destruct (mx ?= my)%positive; reflexivity.
Qed.

(** C3: the pre-shock revenues are the normal batch with every value
    below 100 raised to 100 and every other value kept, so each of
    them is at least 100. *)
Theorem pre_revenue_clamped n w s w' :
  simulate n w = Ok (s, w') ->
  pre_covid_revenue s = (fun x => np_maximum x f_100) <$> normal_batch n (w_rng w) /\
  length (normal_batch n (w_rng w)) = n /\
  (forall r, r ∈ normal_batch n (w_rng w) ->
     (ltb r f_100 = true -> np_maximum r f_100 = f_100) /\
     (leb f_100 r = true -> np_maximum r f_100 = r)) /\
  (forall p, p ∈ pre_covid_revenue s -> leb f_100 p = true).
Proof.
  intros Hrun. rewrite simulate_spec in Hrun. injection Hrun as <- _.
  split; [reflexivity|]. split; [apply normal_batch_length|]. split.
  - intros r Hr. split.
    + intros Hlt. unfold np_maximum, ltb, SFltb, leb, SFleb in *.
      destruct (SFcompare r f_100) as [[]|] eqn:Hc; try discriminate.
      rewrite (SFcompare_antisym _ _ _ Hc).
      destruct r; try discriminate; reflexivity.
    + intros Hle. unfold np_maximum. rewrite Hle.
      destruct (is_nan r); reflexivity.
  - intros p Hp. apply list_elem_of_lookup in Hp. destruct Hp as [i Hi].
    destruct (pre_pos_normal n _ i p Hi) as (vp & Hpn & H100).
    apply (leb_pos_normal f_100 p 100 vp pos_normal_100 Hpn). assumption.
Qed.

(** C4: the decline of a record is ((pre - post) / pre) * 100 in
    binary64, the divisor is at least 100 and so not zero, and neither
    the quotient nor the result is an infinity or a NaN. *)
Theorem division_is_safe n w df w' pre post decl i p q :
  dataset n w = Ok (df, w') ->
  df_getitem df "pre_covid_revenue" = Ok (FloatCol pre) ->
  df_getitem df "post_covid_revenue" = Ok (FloatCol post) ->
  df_getitem df "decline_percent" = Ok (FloatCol decl) ->
  pre !! i = Some p -> post !! i = Some q ->
  decl !! i = Some (mul (div (sub p q) p) f_100) /\
  leb f_100 p = true /\
  eqb p zero = false /\
  is_finite (div (sub p q) p) = true /\
  is_finite (mul (div (sub p q) p) f_100) = true.
Proof.
  intros Hrun Hpre Hpost Hdecl Hp Hq.
  rewrite dataset_spec in Hrun. injection Hrun as <- _.
  rewrite table_pre in Hpre. injection Hpre as <-.
  rewrite table_post in Hpost. injection Hpost as <-.
  rewrite table_decline in Hdecl. injection Hdecl as <-.
  split; [apply decline_lookup; exists p, q; auto|].
  destruct (row_analysis n _ i p q Hp Hq)
    as (vp & vq & w4 & Hpn & H100 & _ & _ & [w3 H3] & H4 & _).
  split; [apply (leb_pos_normal f_100 p 100 vp pos_normal_100 Hpn); assumption|].
  split; [apply (pos_normal_not_zero p vp Hpn)|].
  split; [apply (pos_normal_is_finite _ w3 H3) | apply (pos_normal_is_finite _ w4 H4)].
Qed.

(** C9: every record has a strictly positive decline, and its
    post-shock revenue is strictly below its pre-shock revenue. *)
Theorem decline_strictly_positive n w df w' pre post decl i p q x :
  dataset n w = Ok (df, w') ->
  df_getitem df "pre_covid_revenue" = Ok (FloatCol pre) ->
  df_getitem df "post_covid_revenue" = Ok (FloatCol post) ->
  df_getitem df "decline_percent" = Ok (FloatCol decl) ->
  pre !! i = Some p -> post !! i = Some q -> decl !! i = Some x ->
  ltb zero x = true /\ ltb q p = true.
Proof.
  intros Hrun Hpre Hpost Hdecl Hp Hq Hx.
  rewrite dataset_spec in Hrun. injection Hrun as <- _.
  rewrite table_pre in Hpre. injection Hpre as <-.
  rewrite table_post in Hpost. injection Hpost as <-.
  rewrite table_decline in Hdecl. injection Hdecl as <-.
  apply decline_lookup in Hx. destruct Hx as (p' & q' & Hp' & Hq' & ->).
  rewrite Hp in Hp'. injection Hp' as <-. rewrite Hq in Hq'. injection Hq' as <-.
  destruct (row_analysis n _ i p q Hp Hq)
    as (vp & vq & w4 & Hpn & _ & Hqn & Hlt & _ & H4 & _).
  split; [apply (pos_normal_gt_zero _ w4 H4)|].
  apply (ltb_pos_normal q p vq vp Hqn Hpn). assumption.
Qed.

(** C8: for every record count, zero included, the simulation returns
    without raising, with [n] entries in each of its five arrays, and
    the table built from them has [n] rows. *)
Theorem simulation_always_succeeds n w :
  exists s w',
    simulate n w = Ok (s, w') /\
    length (business_ids s) = n /\
    length (business_sectors s) = n /\
    length (pre_covid_revenue s) = n /\
    length (drop_factors s) = n /\
    length (post_covid_revenue s) = n /\
    exists df, make_frame s w' = Ok (df, w') /\ df_nrows df = n.
Proof.
  exists (simulated_from n (w_rng w)),
    {| w_rng := rng_after n (w_rng w); w_fs := w_fs w; w_events := w_events w |}.
  split; [apply simulate_spec|].
  destruct (simulated_from_lengths n (w_rng w)) as (H1 & H2 & H3 & H4 & H5).
  repeat (split; [assumption|]).
  set (s := simulated_from n (w_rng w)) in *.
  unfold make_frame, lift, pd_DataFrame.
  cbn [forallb snd]. unfold column_length, column_cells.
  rewrite !length_fmap, H1, H2, H3, H5, Nat.eqb_refl. cbn [andb].
  eexists. split; [reflexivity|]. reflexivity.
Qed.

(** The seed and the directory check always succeed; the generator is
    reset to the seed 42, and the directory is created, with its
    progress line, exactly when the path is absent. *)
Lemma setup_spec w :
  setup w =
    Ok (tt,
        {| w_rng := rs_seed 42;
           w_fs := match w_fs w !! output_dir with
                   | Some _ => w_fs w
                   | None => <[output_dir := Dir]> (w_fs w)
                   end;
           w_events :=
             w_events w ++
             match w_fs w !! output_dir with
             | Some _ => [EvExists output_dir]
             | None => [EvExists output_dir; EvMakedirs output_dir;
                        EvPrint "Created output directory: output_images"]
             end |}).
Proof.
  unfold setup, np_random_seed, os_path_exists, os_makedirs, print, log, ret, bind.
  cbn [w_rng w_fs w_events].
  destruct (w_fs w !! output_dir) as [nd|] eqn:E.
  - rewrite bool_decide_eq_true_2 by eauto. reflexivity.
  - rewrite bool_decide_eq_false_2 by (intros [? ?]; discriminate).
    cbn [negb w_rng w_fs w_events]. rewrite E.
    cbn [w_rng w_fs w_events]. rewrite <- !app_assoc. reflexivity.
Qed.

(** C6: two runs started in any two worlds compute the same simulated
    arrays, the ones drawn from the state of seed 42 in the order
    sector batch, normal batch, uniform batch. *)
Theorem simulation_deterministic n w1 w2 :
  exists w1' w2',
    bind setup (fun _ => simulate n) w1 = Ok (simulated_from n (rs_seed 42), w1') /\
    bind setup (fun _ => simulate n) w2 = Ok (simulated_from n (rs_seed 42), w2') /\
    business_sectors (simulated_from n (rs_seed 42)) = sector_batch n (rs_seed 42) /\
    pre_covid_revenue (simulated_from n (rs_seed 42))
      = np_clip_min (normal_batch n (rs_seed 42)) f_100 /\
    drop_factors (simulated_from n (rs_seed 42)) = uniform_batch n (rs_seed 42).
Proof.
  unfold bind. rewrite !setup_spec, !simulate_spec. cbn [w_rng].
  eexists. eexists. repeat split; reflexivity.
Qed.

End Claims.

(** * The exporter *)

Section ExportFacts.

Context {RS : RandomState}.

Lemma write_file_ok p c w :
  w_fs w !! removelast p = Some Dir ->
  w_fs w !! p <> Some Dir ->
  write_file p c w =
    Ok (tt, {| w_rng := w_rng w;
               w_fs := <[p := File c]> (w_fs w);
               w_events := w_events w ++ [EvWrite p] |}).
Proof.
  intros Hdir Hp. unfold write_file, log, bind. cbn [w_rng w_fs w_events].
  rewrite Hdir.
  destruct (w_fs w !! p) as [[|c']|];
    [exfalso; apply Hp; reflexivity | reflexivity | reflexivity].
Qed.

Lemma df_to_csv_dir df p w :
  w_fs w !! removelast p = Some Dir ->
  df_to_csv df p w = write_file p (CsvFile (csv_table df)) w.
Proof. intros H. unfold df_to_csv. rewrite H. reflexivity. Qed.

Lemma artifact_parent p : p ∈ artifact_paths -> removelast p = output_dir.
Proof.
  unfold artifact_paths. rewrite !elem_of_cons, elem_of_nil.
  intros [-> | [-> | [-> | [-> | [-> | []]]]]]; reflexivity.
Qed.

Lemma artifact_not_output_dir p : p ∈ artifact_paths -> p <> output_dir.
Proof.
  unfold artifact_paths. rewrite !elem_of_cons, elem_of_nil.
  intros [-> | [-> | [-> | [-> | [-> | []]]]]]; discriminate.
Qed.

Lemma export_ok s w :
  w_fs w !! output_dir = Some Dir ->
  (forall p, p ∈ artifact_paths -> w_fs w !! p <> Some Dir) ->
  export (table_of s) w =
    Ok (tt, {| w_rng := w_rng w;
               w_fs := exported_fs s (w_fs w);
               w_events := w_events w ++ export_events |}).
Proof.
  intros Hdir Hfree.
  assert (H1 : w_fs w !! csv_path <> Some Dir) by (apply Hfree; set_solver).
  assert (H2 : w_fs w !! hist_path <> Some Dir) by (apply Hfree; set_solver).
  assert (H3 : w_fs w !! boxplot_path <> Some Dir) by (apply Hfree; set_solver).
  assert (H4 : w_fs w !! barplot_path <> Some Dir) by (apply Hfree; set_solver).
  assert (H5 : w_fs w !! scatter_path <> Some Dir) by (apply Hfree; set_solver).
  unfold export, plt_savefig, float_column, str_column, lift, print,
    log, ret.
  rewrite table_decline, table_sector, table_pre, table_post.
  unfold bind. rewrite df_to_csv_dir by exact Hdir.
  rewrite write_file_ok by assumption. cbn [w_rng w_fs w_events].
  rewrite write_file_ok
    by (cbn [w_rng w_fs w_events]; rewrite lookup_insert_ne by discriminate; assumption).
  cbn [w_rng w_fs w_events].
  rewrite write_file_ok
    by (cbn [w_rng w_fs w_events]; rewrite !lookup_insert_ne by discriminate; assumption).
  cbn [w_rng w_fs w_events].
  rewrite write_file_ok
    by (cbn [w_rng w_fs w_events]; rewrite !lookup_insert_ne by discriminate; assumption).
  cbn [w_rng w_fs w_events].
  rewrite write_file_ok
    by (cbn [w_rng w_fs w_events]; rewrite !lookup_insert_ne by discriminate; assumption).
  cbn [w_rng w_fs w_events].
  unfold exported_fs, export_events. rewrite <- !app_assoc. reflexivity.
Qed.

(** A run whose file system is ready succeeds. *)
Lemma script_ok n w :
  fs_ready (w_fs w) ->
  script n w =
    Ok (tt,
        {| w_rng := rng_after n (rs_seed 42);
           w_fs := exported_fs (simulated_from n (rs_seed 42))
                     (match w_fs w !! output_dir with
                      | Some _ => w_fs w
                      | None => <[output_dir := Dir]> (w_fs w)
                      end);
           w_events :=
             (w_events w ++
              match w_fs w !! output_dir with
              | Some _ => [EvExists output_dir]
              | None => [EvExists output_dir; EvMakedirs output_dir;
                         EvPrint "Created output directory: output_images"]
              end) ++ export_events |}).
Proof.
  intros [Hdir Hfree]. unfold script, bind.
  rewrite setup_spec, dataset_spec. cbn [w_rng w_fs w_events].
  rewrite export_ok; cbn [w_rng w_fs w_events].
  - reflexivity.
  - destruct Hdir as [Hd | Hd]; rewrite Hd; [apply lookup_insert_eq | exact Hd].
  - intros p Hp. destruct Hdir as [Hd | Hd]; rewrite Hd; [|apply Hfree; assumption].
    rewrite lookup_insert_ne by (apply not_eq_sym, artifact_not_output_dir; assumption).
    apply Hfree; assumption.
Qed.

End ExportFacts.

(** * Sums of numbers of either sign *)

Section Regular.
Local Open Scope R_scope.

















End Regular.

Section RegularArithmetic.
Local Open Scope R_scope.






End RegularArithmetic.

(** * Compensated summation *)

Section KahanReal.
Local Open Scope R_scope.





End KahanReal.

Section KahanFloat.
Local Open Scope R_scope.








End KahanFloat.

Section KahanStep.
Local Open Scope R_scope.


End KahanStep.

Section GroupMean.
Local Open Scope R_scope.





End GroupMean.

(** * Grouped aggregation *)

Section GroupBy.

Context {A : Type} (init : A) (step : A -> float -> A) (finish : A -> float).

(** The accumulator of a key after a pass over the rows is the
    accumulator fed with the values of that key alone. *)
Lemma group_fold_lookup (rows : list (string * float)) :
  forall (acc : gmap string A) (k : string),
  fold_left (group_step init step) rows acc !! k =
  fold_left (fun o v => Some (step (default init o) v))
    (snd <$> filter (fun kv => fst kv = k) rows) (acc !! k).
Proof.
  induction rows as [|[k' v] rows IH]; intros acc k; [reflexivity|].
  cbn [fold_left]. rewrite IH. unfold group_step. cbn [fst snd].
  rewrite filter_cons. cbn [fst].
  destruct (decide (k' = k)) as [-> | Hne].
  - rewrite lookup_insert_eq. reflexivity.
  - rewrite lookup_insert_ne by assumption. reflexivity.
Qed.

Lemma option_fold_some (l : list float) :
  forall a : A,
  fold_left (fun o v => Some (step (default init o) v)) l (Some a)
  = Some (fold_left step l a).
Proof.
  induction l as [|v l IH]; intros a; [reflexivity|].
  cbn [fold_left]. change (default init (Some a)) with a. apply IH.
Qed.

Lemma option_fold_none (l : list float) :
  fold_left (fun o v => Some (step (default init o) v)) l None
  = match l with
    | [] => None
    | _ => Some (fold_left step l init)
    end.
Proof.
  destruct l as [|v l]; [reflexivity|].
  cbn [fold_left]. change (default init None) with init.
  apply option_fold_some.
Qed.

(** The grouped aggregation has one entry per observed key, and the
    entry of a key is the aggregate of the values restricted to it. *)
Lemma groupby_agg_spec (keys : list string) (vals : list float) :
  (forall k m, (k, m) ∈ groupby_agg init step finish keys vals <->
     restrict k keys vals <> [] /\
     m = series_agg init step finish (restrict k keys vals)) /\
  NoDup (fst <$> groupby_agg init step finish keys vals).
Proof.
  unfold groupby_agg.
  set (acc := fold_left (group_step init step) (zip keys vals) ∅).
  assert (Hacc : forall k, acc !! k =
            match restrict k keys vals with
            | [] => None
            | _ => Some (fold_left step (restrict k keys vals) init)
            end).
  { intros k. unfold acc. rewrite group_fold_lookup, lookup_empty.
    apply option_fold_none. }
  split.
  - intros k m. rewrite list_elem_of_fmap. split.
    + intros ([k' a] & Heq & Hin). cbn [fst snd] in Heq.
      injection Heq as -> ->.
      rewrite merge_sort_Permutation in Hin.
      apply elem_of_map_to_list in Hin. rewrite Hacc in Hin.
      unfold series_agg.
      destruct (restrict k' keys vals) as [|v l] eqn:Hr; [discriminate|].
      injection Hin as <-. split; [discriminate | reflexivity].
    + intros [Hne ->].
      pose proof (Hacc k) as Hk. unfold series_agg.
      destruct (restrict k keys vals) as [|v l] eqn:Hr; [contradiction|].
      eexists (k, _). split; [|rewrite merge_sort_Permutation;
                                apply elem_of_map_to_list; exact Hk].
      reflexivity.
  - rewrite <- list_fmap_compose.
    rewrite (list_fmap_ext _ fst) by (intros ? [? ?] ?; reflexivity).
    rewrite merge_sort_Permutation. apply NoDup_fst_map_to_list.
Qed.

End GroupBy.

(** * The exported files *)

Section ExportClaims.

Context {RS : RandomState}.

Lemma exported_lookup_csv s fs :
  exported_fs s fs !! csv_path = Some (File (CsvFile (csv_table (table_of s)))).
Proof.
  unfold exported_fs. rewrite !lookup_insert_ne by discriminate.
  apply lookup_insert_eq.
Qed.

Lemma exported_lookup_barplot s fs :
  exported_fs s fs !! barplot_path
  = Some (File (PngFile (barplot_figure (business_sectors s)
                           (decline_of (pre_covid_revenue s) (post_covid_revenue s))))).
Proof.
  unfold exported_fs. rewrite !lookup_insert_ne by discriminate.
  apply lookup_insert_eq.
Qed.

Lemma exported_lookup_other s fs (p : path) :
  p ∉ artifact_paths -> exported_fs s fs !! p = fs !! p.
Proof.
  intros Hp. unfold artifact_paths in Hp.
  rewrite !not_elem_of_cons in Hp. destruct Hp as (H1 & H2 & H3 & H4 & H5 & _).
  unfold exported_fs. rewrite !lookup_insert_ne by (apply not_eq_sym; assumption).
  reflexivity.
Qed.

(** The row [i] of the table of a simulation. *)
Lemma table_row n g i :
  (i < n)%nat ->
  exists sec p q x,
    df_row (table_of (simulated_from n g)) i
    = [CInt (1 + Z.of_nat i); CStr sec; CFloat p; CFloat q; CFloat x] /\
    business_sectors (simulated_from n g) !! i = Some sec /\
    pre_covid_revenue (simulated_from n g) !! i = Some p /\
    post_covid_revenue (simulated_from n g) !! i = Some q /\
    decline_of (pre_covid_revenue (simulated_from n g))
      (post_covid_revenue (simulated_from n g)) !! i = Some x.
Proof.
  intros Hi.
  destruct (simulated_from_lengths n g) as (H1 & H2 & H3 & H4 & H5).
  set (s := simulated_from n g) in *.
  assert (Hid : business_ids s !! i = Some (1 + Z.of_nat i)%Z).
  { subst s. cbn [business_ids simulated_from]. apply lookup_seqZ. split; lia. }
  destruct (lookup_lt_is_Some_2 (business_sectors s) i) as [sec Hsec]; [lia|].
  destruct (lookup_lt_is_Some_2 (pre_covid_revenue s) i) as [p Hp]; [lia|].
  destruct (lookup_lt_is_Some_2 (post_covid_revenue s) i) as [q Hq]; [lia|].
  assert (Hx : decline_of (pre_covid_revenue s) (post_covid_revenue s) !! i
               = Some (mul (div (sub p q) p) f_100)).
  { apply decline_lookup. exists p, q. auto. }
  exists sec, p, q, (mul (div (sub p q) p) f_100).
  split; [|auto].
  unfold df_row, table_of. cbn [df_columns omap list_omap snd column_cells].
  rewrite !list_lookup_fmap, Hid, Hsec, Hp, Hq, Hx. reflexivity.
Qed.

(** C5: the CSV file of a run holds the header of the five columns
    (the drop factor is not one of them) and then [n] rows of five
    cells; row [i] starts with the business id [i + 1], so the ids are
    1..n in order and no id occurs twice. *)
Theorem exported_table n w :
  fs_ready (w_fs w) ->
  exists w' rows,
    script n w = Ok (tt, w') /\
    w_fs w' !! csv_path =
      Some (File (CsvFile
        ([CStr "business_id"; CStr "sector"; CStr "pre_covid_revenue";
          CStr "post_covid_revenue"; CStr "decline_percent"] :: rows))) /\
    length rows = n /\
    (forall i, (i < n)%nat ->
       exists sec p q x,
         rows !! i = Some [CInt (1 + Z.of_nat i); CStr sec; CFloat p; CFloat q; CFloat x]) /\
    (forall i j ri rj,
       rows !! i = Some ri -> rows !! j = Some rj ->
       ri !! 0%nat = rj !! 0%nat -> i = j).
Proof.
  intros Hready.
  set (s := simulated_from n (rs_seed 42)).
  assert (Hn : df_nrows (table_of s) = n).
  { unfold table_of. cbn [df_nrows]. apply simulated_from_lengths. }
  eexists. exists (df_row (table_of s) <$> seq 0 n).
  split; [apply script_ok; assumption|].
  cbn [w_fs]. rewrite exported_lookup_csv. fold s.
  unfold csv_table. rewrite Hn.
  assert (Hrow : forall i, (i < n)%nat ->
            exists sec p q x,
              (df_row (table_of s) <$> seq 0 n) !! i
              = Some [CInt (1 + Z.of_nat i); CStr sec; CFloat p; CFloat q; CFloat x]).
  { intros i Hi. destruct (table_row n (rs_seed 42) i Hi) as (sec & p & q & x & Hr & _).
    exists sec, p, q, x. rewrite list_lookup_fmap, lookup_seq_lt by assumption.
    cbn. f_equal. exact Hr. }
  split; [reflexivity|]. split; [rewrite length_fmap, length_seq; reflexivity|].
  split; [exact Hrow|].
  intros i j ri rj Hi Hj Heq.
  assert (Hin : (i < n)%nat).
  { apply lookup_lt_Some in Hi. rewrite length_fmap, length_seq in Hi. exact Hi. }
  assert (Hjn : (j < n)%nat).
  { apply lookup_lt_Some in Hj. rewrite length_fmap, length_seq in Hj. exact Hj. }
  destruct (Hrow i Hin) as (? & ? & ? & ? & Hi').
  destruct (Hrow j Hjn) as (? & ? & ? & ? & Hj').
  rewrite Hi in Hi'. injection Hi' as ->. rewrite Hj in Hj'. injection Hj' as ->.
  cbn in Heq. injection Heq as Heq. lia.
Qed.





(** C10: the directory check never fails; it creates the directory and
    prints the progress line exactly when the path is absent.  When
    the directory exists, a run does not call [os.makedirs], does not
    print that line, leaves the directory entry and every entry other
    than the five artifacts as they were, and writes the five
    artifacts inside the directory. *)
Theorem existing_directory_untouched n w :
  (exists w1 evs,
     setup w = Ok (tt, w1) /\ w_events w1 = w_events w ++ evs /\
     (EvMakedirs output_dir ∈ evs <-> w_fs w !! output_dir = None) /\
     (EvPrint "Created output directory: output_images" ∈ evs
        <-> w_fs w !! output_dir = None) /\
     (is_Some (w_fs w !! output_dir) -> w_fs w1 = w_fs w)) /\
  (w_fs w !! output_dir = Some Dir ->
   (forall p, p ∈ artifact_paths -> w_fs w !! p <> Some Dir) ->
   exists w' evs,
     script n w = Ok (tt, w') /\
     w_events w' = w_events w ++ evs /\
     (forall p, EvMakedirs p ∉ evs) /\
     (EvPrint "Created output directory: output_images" ∉ evs) /\
     (forall p, EvWrite p ∈ evs -> (p ∈ artifact_paths) /\ removelast p = output_dir) /\
     w_fs w' !! output_dir = Some Dir /\
     (forall p : path, p ∉ artifact_paths -> w_fs w' !! p = w_fs w !! p)).
Proof.
  split.
  - eexists. eexists. split; [apply setup_spec|]. cbn [w_events w_fs].
    split; [reflexivity|].
    destruct (w_fs w !! output_dir) as [nd|] eqn:E.
    + split; [|split].
      * rewrite list_elem_of_singleton. split; discriminate.
      * rewrite list_elem_of_singleton. split; discriminate.
      * reflexivity.
    + split; [|split].
      * split; [intros _; reflexivity | intros _; set_solver].
      * split; [intros _; reflexivity | intros _; set_solver].
      * intros [? ?]. discriminate.
  - intros Hdir Hfree.
    assert (Hready : fs_ready (w_fs w)) by (split; [right|]; assumption).
    eexists. eexists. split; [apply script_ok; assumption|].
    cbn [w_events w_fs]. rewrite Hdir, <- app_assoc.
    split; [reflexivity|].
    split; [|split; [|split; [|split]]].
    + intros p Hp. unfold export_events in Hp.
      rewrite !elem_of_app, !elem_of_cons, elem_of_nil in Hp.
      repeat (destruct Hp as [Hp | Hp]; try discriminate); contradiction.
    + intros Hp. unfold export_events in Hp.
      rewrite !elem_of_app, !elem_of_cons, elem_of_nil in Hp.
      repeat (destruct Hp as [Hp | Hp]; try discriminate); contradiction.
    + intros p Hp. unfold export_events in Hp.
      rewrite !elem_of_app, !elem_of_cons, elem_of_nil in Hp.
      assert (Hin : p ∈ artifact_paths).
      { unfold artifact_paths. rewrite !elem_of_cons.
        repeat (destruct Hp as [Hp | Hp]; try discriminate);
          try contradiction; injection Hp as ->; tauto. }
      split; [exact Hin | apply artifact_parent; exact Hin].
    + rewrite exported_lookup_other; [exact Hdir|].
      intros Hin. apply artifact_not_output_dir in Hin. contradiction.
    + intros p Hp. apply exported_lookup_other. exact Hp.
Qed.

End ExportClaims.

(** * The run as a whole *)

Section RunFacts.

Context {RS : RandomState}.

(** Writing below a directory either fails because the path is a
    directory, or stores the file. *)
Lemma write_file_cases p c w :
  w_fs w !! removelast p = Some Dir ->
  (w_fs w !! p = Some Dir /\ write_file p c w = Raise IsADirectoryError) \/
  (w_fs w !! p <> Some Dir /\
   write_file p c w =
     Ok (tt, {| w_rng := w_rng w;
                w_fs := <[p := File c]> (w_fs w);
                w_events := w_events w ++ [EvWrite p] |})).
Proof.
  intros Hdir.
  destruct (w_fs w !! p) as [[|c']|] eqn:E.
  - left. split; [reflexivity|].
    unfold write_file, log, bind. cbn [w_rng w_fs w_events].
    rewrite Hdir, E. reflexivity.
  - right. split; [discriminate|]. apply write_file_ok; [assumption|].
    rewrite E. discriminate.
  - right. split; [discriminate|]. apply write_file_ok; [assumption|].
    rewrite E. discriminate.
Qed.

Lemma df_to_csv_below_file df p c w :
  w_fs w !! removelast p = Some (File c) ->
  df_to_csv df p w = Raise OSError.
Proof. intros H. unfold df_to_csv. rewrite H. reflexivity. Qed.

(** An export that succeeds found none of the five paths a directory. *)
Lemma export_inv s w w' :
  w_fs w !! output_dir = Some Dir ->
  export (table_of s) w = Ok (tt, w') ->
  forall p, p ∈ artifact_paths -> w_fs w !! p <> Some Dir.
Proof.
  intros Hdir Hrun.
  unfold export, plt_savefig, float_column, str_column, lift, print,
    log, ret in Hrun.
  rewrite table_decline, table_sector, table_pre, table_post in Hrun.
  unfold bind in Hrun. rewrite df_to_csv_dir in Hrun by exact Hdir.
  repeat match type of Hrun with
  | context [write_file ?p ?c ?w0] =>
      let E := fresh "E" in
      let H := fresh "H" in
      destruct (write_file_cases p c w0) as [[E H] | [E H]];
        [ cbn [w_rng w_fs w_events];
          rewrite ?lookup_insert_ne by discriminate; exact Hdir
        | rewrite H in Hrun; discriminate Hrun
        | rewrite H in Hrun; cbn [w_rng w_fs w_events] in E, Hrun;
          rewrite ?lookup_insert_ne in E by discriminate ]
  end.
  intros p Hp. unfold artifact_paths in Hp.
  rewrite !elem_of_cons, elem_of_nil in Hp.
  destruct Hp as [-> | [-> | [-> | [-> | [-> | []]]]]]; assumption.
Qed.

(** A run that succeeds started from a ready file system. *)
Lemma script_ready_inv n w w' :
  script n w = Ok (tt, w') -> fs_ready (w_fs w).
Proof.
  unfold script, bind. rewrite setup_spec, dataset_spec.
  cbn [w_rng w_fs w_events]. intros Hrun.
  destruct (w_fs w !! output_dir) as [[|c]|] eqn:E.
  - split; [right; exact E|].
    apply (fun Hd => export_inv _ _ _ Hd Hrun). exact E.
  - exfalso. revert Hrun.
    unfold export, bind.
    rewrite (df_to_csv_below_file _ _ c) by exact E. discriminate.
  - split; [left; exact E|].
    intros p Hp.
    assert (H : <[output_dir := Dir]> (w_fs w) !! p <> Some Dir).
    { apply (fun Hd => export_inv _ _ _ Hd Hrun); [|exact Hp].
      apply lookup_insert_eq. }
    rewrite lookup_insert_ne in H
      by (apply not_eq_sym, artifact_not_output_dir; assumption).
    exact H.
Qed.

(** The content of an artifact after the export does not depend on
    what the file system held before. *)
Lemma exported_lookup_artifact s fs fs' p :
  p ∈ artifact_paths -> exported_fs s fs !! p = exported_fs s fs' !! p.
Proof.
  unfold artifact_paths. rewrite !elem_of_cons, elem_of_nil.
  unfold exported_fs.
  intros [-> | [-> | [-> | [-> | [-> | []]]]]];
    (etrans; [|symmetry]);
    (rewrite ?lookup_insert_ne by discriminate; apply lookup_insert_eq).
Qed.

Lemma exported_fs_idem s fs : exported_fs s (exported_fs s fs) = exported_fs s fs.
Proof.
  apply map_eq. intros p.
  destruct (decide (p ∈ artifact_paths)) as [Hin | Hout].
  - apply exported_lookup_artifact. exact Hin.
  - apply exported_lookup_other. exact Hout.
Qed.

Lemma exported_fs_ready s fs :
  fs !! output_dir = Some Dir -> fs_ready (exported_fs s fs).
Proof.
  intros Hdir. split.
  - right. rewrite exported_lookup_other; [exact Hdir|].
    intros Hin. apply artifact_not_output_dir in Hin. contradiction.
  - unfold artifact_paths, exported_fs. intros p Hp.
    rewrite !elem_of_cons, elem_of_nil in Hp.
    destruct Hp as [-> | [-> | [-> | [-> | [-> | []]]]]];
      rewrite ?lookup_insert_ne by discriminate;
      rewrite lookup_insert_eq; discriminate.
Qed.

(** The file system a run starts its export from. *)
Lemma setup_fs_dir (fs : gmap path node) :
  (fs !! output_dir = None \/ fs !! output_dir = Some Dir) ->
  match fs !! output_dir with
  | Some _ => fs
  | None => <[output_dir := Dir]> fs
  end !! output_dir = Some Dir.
Proof.
  intros [H | H]; rewrite H; [apply lookup_insert_eq | exact H].
Qed.

(** X1: a run succeeds exactly when its file system is ready: the
    output path is absent or a directory, and none of the five
    artifact paths is a directory.  In every other case it raises. *)
Theorem run_succeeds_iff_ready n w :
  ((exists w', script n w = Ok (tt, w')) <-> fs_ready (w_fs w)) /\
  (~ fs_ready (w_fs w) -> exists e, script n w = Raise e).
Proof.
  split; [split|].
  - intros [w' H]. apply (script_ready_inv n w w' H).
  - intros H. eexists. apply script_ok. exact H.
  - intros Hn. destruct (script n w) as [[[] w']|e] eqn:E.
    + exfalso. apply Hn. apply (script_ready_inv n w w' E).
    + exists e. reflexivity.
Qed.

(** X2: running the script again on the file system a run has left
    succeeds, creates no directory, and leaves every file as it is:
    the artifacts are overwritten with identical content. *)
Theorem rerun_identical n w w1 :
  script n w = Ok (tt, w1) ->
  exists w2,
    script n w1 = Ok (tt, w2) /\
    w_fs w2 = w_fs w1 /\
    w_events w2 = w_events w1 ++ [EvExists output_dir] ++ export_events.
Proof.
  intros Hrun. pose proof (script_ready_inv n w w1 Hrun) as Hready.
  rewrite script_ok in Hrun by assumption. injection Hrun as <-.
  pose proof (setup_fs_dir (w_fs w) (proj1 Hready)) as Hdir.
  set (fs0 := match w_fs w !! output_dir with
              | Some _ => w_fs w
              | None => <[output_dir := Dir]> (w_fs w)
              end) in *.
  pose proof (exported_fs_ready (simulated_from n (rs_seed 42)) fs0 Hdir) as Hr1.
  eexists. split; [apply script_ok; exact Hr1|].
  cbn [w_fs w_events].
  destruct Hr1 as [[Hnone | Hd] _].
  - exfalso. rewrite exported_lookup_other in Hnone.
    + rewrite Hdir in Hnone. discriminate.
    + intros Hin. apply artifact_not_output_dir in Hin. contradiction.
  - rewrite Hd. split; [apply exported_fs_idem|].
    rewrite <- !app_assoc. reflexivity.
Qed.

(** X3: after a run the output path is a directory, the CSV path holds
    a table and each chart path a figure, and every other path is as
    it was before the run. *)
Theorem run_leaves_five_files n w w' :
  script n w = Ok (tt, w') ->
  w_fs w' !! output_dir = Some Dir /\
  (exists rows, w_fs w' !! csv_path = Some (File (CsvFile rows))) /\
  (forall p, p ∈ chart_paths ->
     exists fig, w_fs w' !! p = Some (File (PngFile fig))) /\
  (forall p : path, p ∉ artifact_paths -> p <> output_dir ->
     w_fs w' !! p = w_fs w !! p).
Proof.
  intros Hrun. pose proof (script_ready_inv n w w' Hrun) as Hready.
  rewrite script_ok in Hrun by assumption. injection Hrun as <-.
  pose proof (setup_fs_dir (w_fs w) (proj1 Hready)) as Hdir.
  cbn [w_fs].
  split; [|split; [|split]].
  - rewrite exported_lookup_other; [exact Hdir|].
    intros Hin. apply artifact_not_output_dir in Hin. contradiction.
  - eexists. apply exported_lookup_csv.
  - intros p Hp. unfold chart_paths in Hp.
    rewrite !elem_of_cons, elem_of_nil in Hp. unfold exported_fs.
    destruct Hp as [-> | [-> | [-> | [-> | []]]]];
      rewrite ?lookup_insert_ne by discriminate;
      rewrite lookup_insert_eq; eexists; reflexivity.
  - intros p Hp Hne. rewrite exported_lookup_other by assumption.
    destruct (w_fs w !! output_dir); [reflexivity|].
    apply lookup_insert_ne. apply not_eq_sym. exact Hne.
Qed.

End RunFacts.

(** * Ranges of the simulated columns *)

Section RoundingAbove.
Local Open Scope R_scope.

(** A value above the midpoint that precedes a normal number does not
    round below that number. *)
Lemma Rnd_ge_mid v w (Y E : Z) :
  Rnd v w ->
  (2 ^ (prec - 1) < Y < 2 ^ prec)%Z ->
  (IZR Y - / 2) * bpow E < v ->
  F2R Y E <= w.
Proof.
  intros H HY Hv.
  destruct (Rnd_inv _ _ H) as (k & N & t & Hvt & Hw & [Hvl Hvu] & Ht & Herr & HN).
  pose proof (bpow_gt_0 E) as HE. pose proof (bpow_gt_0 (k - prec)) as Hg.
  assert (HYR : IZR (2 ^ (prec - 1)) + 1 <= IZR Y /\ IZR Y + 1 <= IZR (2 ^ prec)).
  { split; rewrite <- plus_IZR; apply IZR_le; lia. }
  rewrite <- !bpow_IZR in HYR by (unfold prec; lia).
  assert (HNR : bpow (prec - 1) <= IZR N).
  { rewrite bpow_IZR by (unfold prec; lia). apply IZR_le. lia. }
  unfold F2R in *.
  assert (HkE : (E <= k - prec)%Z).
  { assert (bpow (prec - 1 + E) < bpow k).
    { rewrite (bpow_plus (prec - 1) E). nra. }
    apply bpow_lt_inv in H0. lia. }
  subst w.
  destruct (Z.eq_dec (k - prec)%Z E) as [Heq | Hne].
  - rewrite Heq in *.
    assert (Ht' : IZR Y - / 2 < t) by nra.
    assert (HNY : IZR (Y - 1) < IZR N) by (rewrite minus_IZR; lra).
    apply lt_IZR in HNY.
    assert (IZR Y <= IZR N) by (apply IZR_le; lia).
    nra.
  - assert (Hk : bpow (prec + E) <= bpow (k - 1)) by (apply bpow_le; lia).
    rewrite (bpow_plus prec E) in Hk.
    replace (bpow (k - 1)) with (bpow (prec - 1) * bpow (k - prec)) in Hk
      by (rewrite <- bpow_plus; f_equal; lia).
    nra.
Qed.

Lemma pos_normal_30 : pos_normal f_30 30.
Proof.
  exists 8444249301319680%positive, (-48)%Z.
  split; [reflexivity|]. split; [reflexivity|].
  split; [vm_compute; split; congruence|].
  unfold F2R. bpow_lit. lra.
Qed.

(** The product of a revenue of at least 100 and a drop factor of at
    least the literal [0.3] rounds to at least 30, although the
    literal is below three tenths. *)
Lemma product_at_least_30 vp vd w1 :
  100 <= vp -> R_0_3 <= vd -> Rnd (vp * vd) w1 -> 30 <= w1.
Proof.
  intros Hp Hd HR.
  replace 30 with (F2R 8444249301319680 (-48)) by (unfold F2R; bpow_lit; lra).
  apply (Rnd_ge_mid _ _ _ _ HR); [unfold prec; lia|].
  assert (H3 : 0 < R_0_3) by (unfold R_0_3, F2R; bpow_lit; lra).
  apply Rlt_le_trans with (100 * R_0_3); [|nra].
  unfold R_0_3, F2R. bpow_lit. lra.
Qed.

End RoundingAbove.

Section ColumnRanges.

Context {RS : RandomState}.
Local Open Scope R_scope.

(** X5: every drop factor lies in the half-open interval from the
    literal 0.3 to 1.0: the sum [0.3 + 0.7 * u] never rounds up to
    1.0. *)
Theorem drop_factor_in_range n w s w' d :
  simulate n w = Ok (s, w') ->
  d ∈ drop_factors s ->
  leb f_0_3 d = true /\ ltb d f_1_0 = true.
Proof.
  intros Hrun Hd. rewrite simulate_spec in Hrun. injection Hrun as <- _.
  apply list_elem_of_lookup in Hd. destruct Hd as [i Hi].
  destruct (drop_pos_normal n _ i d Hi) as (vd & Hdn & Hlo & Hhi).
  split.
  - apply (leb_pos_normal f_0_3 d R_0_3 vd pos_normal_0_3 Hdn). exact Hlo.
  - apply (ltb_pos_normal d f_1_0 vd 1 Hdn pos_normal_1_0). exact Hhi.
Qed.

(** X6: every post-shock revenue is a finite number of at least 30. *)
Theorem post_revenue_at_least_30 n w s w' q :
  simulate n w = Ok (s, w') ->
  q ∈ post_covid_revenue s ->
  leb f_30 q = true /\ is_finite q = true.
Proof.
  intros Hrun Hq. rewrite simulate_spec in Hrun. injection Hrun as <- _.
  apply list_elem_of_lookup in Hq. destruct Hq as [i Hi].
  apply post_lookup in Hi. destruct Hi as (p & d & Hp & Hd & ->).
  destruct (record_chain n _ i p d Hp Hd)
    as (vp & vd & w1 & w2 & w3 & w4 & H).
  decompose [and] H.
  match goal with
  | H1 : pos_normal (mul p d) w1, HR : Rnd (vp * vd) w1 |- _ =>
      split; [|apply (pos_normal_is_finite _ w1 H1)];
      apply (leb_pos_normal f_30 (mul p d) 30 w1 pos_normal_30 H1);
      apply (product_at_least_30 vp vd w1); assumption
  end.
Qed.

(** X7: every simulated sector is one of the five names of the
    script; the default of an out-of-range index never shows. *)
Theorem sectors_from_the_list n w s w' k :
  simulate n w = Ok (s, w') ->
  k ∈ business_sectors s ->
  k ∈ sectors.
Proof.
  intros Hrun Hk. rewrite simulate_spec in Hrun. injection Hrun as <- _.
  apply (sector_batch_in_sectors n (w_rng w)). exact Hk.
Qed.

End ColumnRanges.

(** * The charts *)

Section GroupOrder.

Context {A : Type} (init : A) (step : A -> float -> A) (finish : A -> float).

Lemma key_le_total : Total (@key_le A).
Proof. intros a b. unfold key_le. apply String.leb_total. Qed.

(** The keys of a grouped aggregation come out in ascending order. *)
Lemma groupby_agg_sorted (keys : list string) (vals : list float) :
  Sorted (fun a b => String.leb a b = true)
    (fst <$> groupby_agg init step finish keys vals).
Proof.
  unfold groupby_agg. rewrite <- list_fmap_compose.
  apply (Sorted_fmap _ (@key_le A)); [intros x y H; exact H|].
  apply Sorted_merge_sort. apply key_le_total.
Qed.

End GroupOrder.

(** A key has rows exactly when it occurs in the key column. *)
Lemma restrict_nonempty (k : string) (keys : list string) (vals : list float) :
  length keys = length vals ->
  (restrict k keys vals <> [] <-> k ∈ keys).
Proof.
  intros Hlen. unfold restrict. split.
  - intros Hne.
    destruct (filter (fun kv => fst kv = k) (zip keys vals)) as [|[k' v] l] eqn:E;
      [contradiction|].
    assert (Hin : (k', v) ∈ filter (fun kv : string * float => fst kv = k) (zip keys vals))
      by (rewrite E; apply list_elem_of_here).
    apply list_elem_of_filter in Hin. destruct Hin as [Hk Hz].
    cbn [fst] in Hk. subst k'. apply (elem_of_zip_l _ _ _ _ Hz).
  - intros Hin Hnil.
    apply list_elem_of_lookup in Hin. destruct Hin as [i Hi].
    destruct (lookup_lt_is_Some_2 vals i) as [v Hv].
    { rewrite <- Hlen. apply (lookup_lt_Some _ _ _ Hi). }
    assert (Hz : (k, v) ∈ zip keys vals).
    { apply list_elem_of_lookup. exists i.
      unfold zip. apply lookup_zip_with_Some. exists k, v. auto. }
    assert (Hf : (k, v) ∈ filter (fun kv : string * float => fst kv = k) (zip keys vals))
      by (apply list_elem_of_filter; split; [reflexivity | exact Hz]).
    apply (list_elem_of_fmap_2 snd) in Hf. rewrite Hnil in Hf.
    apply elem_of_nil in Hf. exact Hf.
Qed.

Section SeriesMax.
Local Open Scope R_scope.

Lemma fold_max_some (l : list float) : forall a : float,
  (forall x, x ∈ a :: l -> exists v, pos_normal x v) ->
  exists m, fold_left max_step l (Some a) = Some m /\
            m ∈ a :: l /\
            forall x, x ∈ a :: l -> leb x m = true.
Proof.
  induction l as [|y l IH]; intros a Hall.
  - exists a. split; [reflexivity|]. split; [apply list_elem_of_here|].
    intros x Hx. apply list_elem_of_singleton in Hx. subst x.
    destruct (Hall a (list_elem_of_here _ _)) as [va Ha].
    apply (leb_pos_normal a a va va Ha Ha). lra.
  - destruct (Hall a (list_elem_of_here _ _)) as [va Ha].
    destruct (Hall y (list_elem_of_further _ _ _ (list_elem_of_here _ _))) as [vy Hy].
    cbn [fold_left]. unfold max_step at 2.
    replace (is_nan y) with false by (destruct Hy as (m & e & -> & _); reflexivity).
    set (a' := if ltb a y then y else a).
    assert (Ha' : exists va', pos_normal a' va' /\ va <= va' /\ vy <= va' /\
                              (a' = a \/ a' = y)).
    { unfold a'. destruct (ltb a y) eqn:E.
      - exists vy. apply (ltb_pos_normal a y va vy Ha Hy) in E.
        repeat split; try lra; auto.
      - exists va. repeat split; try lra; auto.
        destruct (Rle_lt_dec vy va) as [H | H]; [exact H|].
        apply (ltb_pos_normal a y va vy Ha Hy) in H. congruence. }
    destruct Ha' as (va' & Hpa' & Hle1 & Hle2 & Hor).
    destruct (IH a') as (m & Hm & Hin & Hmax).
    { intros x Hx. apply elem_of_cons in Hx. destruct Hx as [-> | Hx].
      - exists va'. exact Hpa'.
      - apply Hall. apply list_elem_of_further, list_elem_of_further. exact Hx. }
    exists m. split; [exact Hm|]. split.
    + apply elem_of_cons in Hin. destruct Hin as [-> | Hin].
      * destruct Hor as [-> | ->];
          [apply list_elem_of_here
          | apply list_elem_of_further, list_elem_of_here].
      * apply list_elem_of_further, list_elem_of_further. exact Hin.
    + assert (Hm' : exists vm, pos_normal m vm /\ va' <= vm).
      { assert (Hpm : exists vm, pos_normal m vm).
        { apply elem_of_cons in Hin. destruct Hin as [-> | Hin].
          - exists va'. exact Hpa'.
          - apply Hall. apply list_elem_of_further, list_elem_of_further. exact Hin. }
        destruct Hpm as [vm Hpm]. exists vm. split; [exact Hpm|].
        apply (leb_pos_normal a' m va' vm Hpa' Hpm).
        apply Hmax. apply list_elem_of_here. }
      destruct Hm' as (vm & Hpm & Hvm).
      intros x Hx. apply elem_of_cons in Hx. destruct Hx as [-> | Hx].
      * apply (leb_pos_normal a m va vm Ha Hpm). lra.
      * apply elem_of_cons in Hx. destruct Hx as [-> | Hx].
        -- apply (leb_pos_normal y m vy vm Hy Hpm). lra.
        -- apply Hmax. apply list_elem_of_further. exact Hx.
Qed.

(** The maximum of a series of positive normal numbers is one of them
    and no entry exceeds it; a series without entries has the maximum
    NaN. *)
Lemma series_max_spec (l : list float) :
  (forall x, x ∈ l -> exists v, pos_normal x v) ->
  (l = [] -> series_max l = nan) /\
  (l <> [] -> series_max l ∈ l /\ forall x, x ∈ l -> leb x (series_max l) = true).
Proof.
  intros Hall. split; [intros ->; reflexivity|].
  intros Hne. destruct l as [|a l]; [contradiction|].
  destruct (Hall a (list_elem_of_here _ _)) as [va Ha].
  destruct (fold_max_some l a Hall) as (m & Hm & Hin & Hmax).
  assert (Hs : series_max (a :: l) = m).
  { unfold series_max. cbn [fold_left].
    replace (is_nan a) with false by (destruct Ha as (m0 & e & -> & _); reflexivity).
    change (default nan (fold_left max_step l (Some a)) = m).
    rewrite Hm. reflexivity. }
  rewrite Hs. split; assumption.
Qed.

End SeriesMax.

Section ChartFacts.

Context {RS : RandomState}.

Lemma exported_lookup_hist s fs :
  exported_fs s fs !! hist_path
  = Some (File (PngFile (hist_figure
                           (decline_of (pre_covid_revenue s) (post_covid_revenue s))))).
Proof.
  unfold exported_fs. rewrite !lookup_insert_ne by discriminate.
  apply lookup_insert_eq.
Qed.

Lemma exported_lookup_boxplot s fs :
  exported_fs s fs !! boxplot_path
  = Some (File (PngFile (boxplot_figure (business_sectors s)
                           (decline_of (pre_covid_revenue s) (post_covid_revenue s))))).
Proof.
  unfold exported_fs. rewrite !lookup_insert_ne by discriminate.
  apply lookup_insert_eq.
Qed.

Lemma exported_lookup_scatter s fs :
  exported_fs s fs !! scatter_path
  = Some (File (PngFile (scatter_figure (pre_covid_revenue s) (post_covid_revenue s)
                           (business_sectors s)))).
Proof. unfold exported_fs. apply lookup_insert_eq. Qed.

Lemma decline_of_length (pre post : list float) :
  length pre = length post -> length (decline_of pre post) = length pre.
Proof.
  intros H. unfold decline_of, series_scale, series_binop.
  rewrite length_fmap, !length_zip_with. lia.
Qed.

(** X4: the trace of the program on a ready file system: the directory
    check, the creation of the directory and its message when the
    directory is absent, then each file written and announced in the
    order CSV, histogram, boxplot, bar plot, scatter plot, and the
    closing message; the CSV file holds the header and 1000 rows. *)
Theorem main_trace w :
  fs_ready (w_fs w) ->
  exists w' rows,
    main w = Ok (tt, w') /\
    w_events w' =
      w_events w ++
      [EvExists ["output_images"%string]] ++
      match w_fs w !! output_dir with
      | None => [EvMakedirs ["output_images"%string];
                 EvPrint "Created output directory: output_images"]
      | Some _ => []
      end ++
      [EvWrite ["output_images"; "covid_impact_data.csv"]%string;
       EvPrint "Data saved to: output_images/covid_impact_data.csv";
       EvWrite ["output_images"; "hist_decline_percent.png"]%string;
       EvPrint "Histogram saved to: output_images/hist_decline_percent.png";
       EvWrite ["output_images"; "boxplot_decline_by_sector.png"]%string;
       EvPrint "Boxplot saved to: output_images/boxplot_decline_by_sector.png";
       EvWrite ["output_images"; "barplot_avg_decline_by_sector.png"]%string;
       EvPrint "Bar plot saved to: output_images/barplot_avg_decline_by_sector.png";
       EvWrite ["output_images"; "scatter_pre_vs_post_revenue.png"]%string;
       EvPrint "Scatter plot saved to: output_images/scatter_pre_vs_post_revenue.png";
       EvPrint "All images have been saved in the 'output_images' folder. You can now download them from that folder."] /\
    w_fs w' !! csv_path = Some (File (CsvFile rows)) /\
    length rows = 1001%nat.
Proof.
  intros Hready. eexists. eexists.
  unfold main, bind. rewrite script_ok by assumption.
  unfold print, log. cbn [w_rng w_fs w_events].
  split; [reflexivity|]. split; [|split].
  - destruct (w_fs w !! output_dir); rewrite <- !app_assoc; reflexivity.
  - apply exported_lookup_csv.
  - unfold csv_table, table_of. cbn [df_nrows length].
    rewrite length_fmap, length_seq.
    destruct (simulated_from_lengths n_businesses (rs_seed 42)) as (-> & _).
    reflexivity.
Qed.

(** X8: the bars of the per-sector chart are labelled with exactly the
    sectors that occur in the table, each once, in ascending order of
    the names; so there are at most five bars, all labelled with names
    of the script's list. *)
Theorem bar_chart_sorted n w :
  fs_ready (w_fs w) ->
  exists w' fig bars,
    script n w = Ok (tt, w') /\
    w_fs w' !! barplot_path = Some (File (PngFile fig)) /\
    fig_plot fig = Barplot bars /\
    Sorted (fun a b => String.leb a b = true) (fst <$> bars) /\
    NoDup (fst <$> bars) /\
    (forall k, k ∈ (fst <$> bars) <->
               k ∈ business_sectors (simulated_from n (rs_seed 42))) /\
    (forall k, k ∈ (fst <$> bars) -> k ∈ sectors) /\
    (length bars <= 5)%nat.
Proof.
  intros Hready. eexists. eexists. eexists.
  split; [apply script_ok; assumption|].
  cbn [w_fs]. rewrite exported_lookup_barplot.
  split; [reflexivity|]. split; [reflexivity|].
  set (s := simulated_from n (rs_seed 42)).
  set (decline := decline_of (pre_covid_revenue s) (post_covid_revenue s)).
  destruct (simulated_from_lengths n (rs_seed 42)) as (_ & H2 & H3 & _ & H5).
  fold s in H2, H3, H5.
  assert (Hlen : length (business_sectors s) = length decline).
  { unfold decline. rewrite decline_of_length; lia. }
  destruct (groupby_agg_spec mean_init mean_step mean_finish
              (business_sectors s) decline) as [Hbars Hnd].
  fold groupby_mean in Hbars, Hnd.
  assert (Hkeys : forall k, k ∈ (fst <$> groupby_mean (business_sectors s) decline)
                            <-> k ∈ business_sectors s).
  { intros k. rewrite <- (restrict_nonempty k _ _ Hlen). split.
    - intros Hk. apply list_elem_of_fmap in Hk.
      destruct Hk as ([k' m] & -> & Hin). cbn [fst].
      apply Hbars in Hin. apply Hin.
    - intros Hne. apply list_elem_of_fmap.
      exists (k, group_mean (restrict k (business_sectors s) decline)).
      split; [reflexivity|]. apply Hbars. split; [exact Hne | reflexivity]. }
  assert (Hsec : forall k, k ∈ (fst <$> groupby_mean (business_sectors s) decline)
                           -> k ∈ sectors).
  { intros k Hk. apply Hkeys in Hk.
    apply (sector_batch_in_sectors n (rs_seed 42)). exact Hk. }
  split; [apply groupby_agg_sorted|].
  split; [exact Hnd|]. split; [exact Hkeys|]. split; [exact Hsec|].
  rewrite <- (length_fmap fst).
  change 5%nat with (length sectors).
  apply submseteq_length, NoDup_submseteq; assumption.
Qed.

(** X9: the scatter plot shows one point per business, with the
    pre-shock revenue as abscissa and the post-shock revenue as
    ordinate; the reference line runs from 0 to the largest pre-shock
    revenue, which is the revenue of some business, and every point
    lies strictly below that line and not beyond its end.  Without
    businesses the end of the line is NaN. *)
Theorem scatter_points_below_line n w :
  fs_ready (w_fs w) ->
  exists w' fig xs ys hue m,
    script n w = Ok (tt, w') /\
    w_fs w' !! scatter_path = Some (File (PngFile fig)) /\
    fig_plot fig = Scatterplot xs ys hue [zero; m] [zero; m] /\
    length xs = n /\ length ys = n /\ length hue = n /\
    (n = 0%nat -> m = nan) /\
    ((0 < n)%nat -> m ∈ xs) /\
    (forall i x y, xs !! i = Some x -> ys !! i = Some y ->
       ltb zero y = true /\ ltb y x = true /\ leb x m = true).
Proof.
  intros Hready. eexists. eexists. eexists. eexists. eexists. eexists.
  split; [apply script_ok; assumption|].
  cbn [w_fs]. rewrite exported_lookup_scatter.
  split; [reflexivity|]. split; [reflexivity|].
  destruct (simulated_from_lengths n (rs_seed 42)) as (_ & H2 & H3 & _ & H5).
  set (s := simulated_from n (rs_seed 42)) in *.
  assert (Hall : forall x, x ∈ pre_covid_revenue s -> exists v, pos_normal x v).
  { intros x Hx. apply list_elem_of_lookup in Hx. destruct Hx as [i Hi].
    destruct (pre_pos_normal n _ i x Hi) as (v & Hv & _). exists v. exact Hv. }
  destruct (series_max_spec (pre_covid_revenue s) Hall) as [Hnil Hmax].
  split; [exact H3|]. split; [exact H5|]. split; [exact H2|].
  split; [|split].
  - intros ->. apply Hnil. apply nil_length_inv. exact H3.
  - intros Hn. apply Hmax. intros E. rewrite E in H3. simpl in H3. lia.
  - intros i x y Hx Hy.
    destruct (row_analysis n _ i x y Hx Hy)
      as (vp & vq & w4 & Hpn & _ & Hqn & Hlt & _).
    split; [apply (pos_normal_gt_zero _ vq Hqn)|].
    split; [apply (ltb_pos_normal y x vq vp Hqn Hpn); exact Hlt|].
    apply Hmax.
    + intros E. rewrite E in Hx. discriminate.
    + apply list_elem_of_lookup. exists i. exact Hx.
Qed.

(** X10: the charts are drawn from the table that is saved: for every
    row of the CSV file, the histogram holds its decline, the boxplot
    its sector and decline, and the scatter plot its two revenues and
    its sector, all at the position of the row. *)
Theorem charts_show_the_saved_table n w :
  fs_ready (w_fs w) ->
  exists w' header rows fh values fb bx by_ fs_ sx sy hue lx ly,
    script n w = Ok (tt, w') /\
    w_fs w' !! csv_path = Some (File (CsvFile (header :: rows))) /\
    w_fs w' !! hist_path = Some (File (PngFile fh)) /\
    fig_plot fh = Histplot values 30 true /\
    w_fs w' !! boxplot_path = Some (File (PngFile fb)) /\
    fig_plot fb = Boxplot bx by_ /\
    w_fs w' !! scatter_path = Some (File (PngFile fs_)) /\
    fig_plot fs_ = Scatterplot sx sy hue lx ly /\
    length rows = n /\ length values = n /\
    length bx = n /\ length by_ = n /\
    length sx = n /\ length sy = n /\ length hue = n /\
    (forall i id sec p q x,
       rows !! i = Some [CInt id; CStr sec; CFloat p; CFloat q; CFloat x] ->
       values !! i = Some x /\
       bx !! i = Some sec /\ by_ !! i = Some x /\
       sx !! i = Some p /\ sy !! i = Some q /\ hue !! i = Some sec).
Proof.
  intros Hready.
  set (s := simulated_from n (rs_seed 42)).
  destruct (simulated_from_lengths n (rs_seed 42)) as (H1 & H2 & H3 & _ & H5).
  fold s in H1, H2, H3, H5.
  assert (Hd : length (decline_of (pre_covid_revenue s) (post_covid_revenue s)) = n).
  { rewrite decline_of_length; lia. }
  eexists. exists (df_header (table_of s)), (df_row (table_of s) <$> seq 0 n).
  eexists. eexists. eexists. eexists. eexists. eexists. eexists. eexists.
  eexists. eexists. eexists.
  split; [apply script_ok; assumption|].
  cbn [w_fs]. fold s.
  split.
  { rewrite exported_lookup_csv. unfold csv_table.
    replace (df_nrows (table_of s)) with n by (unfold table_of; cbn [df_nrows]; lia).
    reflexivity. }
  split; [apply exported_lookup_hist|]. split; [reflexivity|].
  split; [apply exported_lookup_boxplot|]. split; [reflexivity|].
  split; [apply exported_lookup_scatter|]. split; [reflexivity|].
  split; [rewrite length_fmap, length_seq; reflexivity|].
  repeat (split; [assumption|]).
  intros i id sec p q x Hrow.
  assert (Hi : (i < n)%nat).
  { apply lookup_lt_Some in Hrow. rewrite length_fmap, length_seq in Hrow. exact Hrow. }
  assert (Hrow' : (df_row (table_of s) <$> seq 0 n) !! i
                  = Some (df_row (table_of s) i))
    by (rewrite list_lookup_fmap, lookup_seq_lt by assumption; reflexivity).
  rewrite Hrow' in Hrow. injection Hrow as Hrow.
  destruct (table_row n (rs_seed 42) i Hi)
    as (sec' & p' & q' & x' & Hr & Hsec & Hp & Hq & Hx).
  fold s in Hr, Hsec, Hp, Hq, Hx.
  rewrite Hr in Hrow. injection Hrow as _ <- <- <- <-.
  repeat split; assumption.
Qed.

End ChartFacts.

(** * Frames *)

Section FrameFacts.

Lemma assoc_set_assoc_eq {A} (k : string) (v : A) (l : list (string * A)) :
  assoc k (set_assoc k v l) = Some v.
Proof.
  induction l as [|[k' v'] l IH]; cbn [set_assoc assoc].
  - rewrite String.eqb_refl. reflexivity.
  - destruct (String.eqb k k') eqn:E; cbn [assoc]; rewrite E; [reflexivity | exact IH].
Qed.

Lemma assoc_set_assoc_ne {A} (k j : string) (v : A) (l : list (string * A)) :
  j <> k -> assoc j (set_assoc k v l) = assoc j l.
Proof.
  intros Hne. induction l as [|[k' v'] l IH]; cbn [set_assoc assoc].
  - apply String.eqb_neq in Hne. rewrite Hne. reflexivity.
  - destruct (String.eqb k k') eqn:E; cbn [assoc].
    + apply String.eqb_eq in E. subst k'.
      apply String.eqb_neq in Hne. rewrite Hne. reflexivity.
    + rewrite IH. reflexivity.
Qed.

Lemma set_assoc_keys {A} (k : string) (v : A) (l : list (string * A)) :
  fst <$> set_assoc k v l =
  match assoc k l with
  | Some _ => fst <$> l
  | None => (fst <$> l) ++ [k]
  end.
Proof.
  induction l as [|[k' v'] l IH]; cbn [set_assoc assoc]; [reflexivity|].
  destruct (String.eqb k k') eqn:E; [reflexivity|].
  cbn [fmap list_fmap fst]. fold (fmap (M := list) (@fst string A)).
  rewrite IH. destruct (assoc k l); reflexivity.
Qed.

Lemma set_assoc_elem {A} (k : string) (v : A) (l : list (string * A)) kc :
  kc ∈ set_assoc k v l -> kc ∈ l \/ snd kc = v.
Proof.
  induction l as [|[k' v'] l IH]; cbn [set_assoc].
  - intros H. apply list_elem_of_singleton in H. subst kc. right. reflexivity.
  - destruct (String.eqb k k').
    + intros H. apply elem_of_cons in H. destruct H as [-> | H].
      * right. reflexivity.
      * left. apply list_elem_of_further. exact H.
    + intros H. apply elem_of_cons in H. destruct H as [-> | H].
      * left. apply list_elem_of_here.
      * destruct (IH H) as [Hl | Hr]; [left; apply list_elem_of_further; exact Hl|].
        right. exact Hr.
Qed.

Lemma omap_length_total {A B} (f : A -> option B) (l : list A) :
  (forall x, x ∈ l -> is_Some (f x)) -> length (omap f l) = length l.
Proof.
  induction l as [|a l IH]; intros H; [reflexivity|].
  cbn [omap list_omap]. destruct (H a (list_elem_of_here _ _)) as [b ->].
  cbn [length]. f_equal. apply IH.
  intros x Hx. apply H. apply list_elem_of_further. exact Hx.
Qed.

(** X11: the assignment [df[name] = c] of a column that has as many
    entries as the frame has rows (as at lines 63-64, where the column
    is computed from the frame's own columns) succeeds; afterwards the
    column [name] is [c], every other column and the number of rows
    are as before, and the columns keep their order, a new name coming
    last; the columns of the new frame all have the frame's length if
    those of the old one had. *)
Theorem df_setitem_getitem df name c :
  column_length c = df_nrows df ->
  exists df',
    df_setitem df name c = Ok df' /\
    df_getitem df' name = Ok c /\
    (forall other, other <> name -> df_getitem df' other = df_getitem df other) /\
    df_nrows df' = df_nrows df /\
    df_header df' =
      match assoc name (df_columns df) with
      | Some _ => df_header df
      | None => df_header df ++ [CStr name]
      end /\
    (df_wf df -> df_wf df').
Proof.
  intros Hlen. unfold df_setitem. rewrite Hlen, Nat.eqb_refl.
  eexists. split; [reflexivity|].
  unfold df_getitem, df_header. cbn [df_columns df_nrows].
  split; [rewrite assoc_set_assoc_eq; reflexivity|].
  split; [intros other Hne; rewrite assoc_set_assoc_ne by assumption; reflexivity|].
  split; [reflexivity|]. split.
  - assert (Hh : forall l : list (string * column),
              ((fun kc => CStr (fst kc)) <$> l) = CStr <$> (fst <$> l)).
    { intros l. rewrite <- list_fmap_compose. reflexivity. }
    rewrite !Hh, set_assoc_keys.
    destruct (assoc name (df_columns df)); [reflexivity|].
    rewrite fmap_app. reflexivity.
  - intros Hwf kc Hkc. cbn [df_columns df_nrows] in *.
    apply set_assoc_elem in Hkc. destruct Hkc as [Hin | ->]; [apply Hwf; exact Hin|].
    exact Hlen.
Qed.

(** X12: [pd.DataFrame] accepts a dictionary of columns exactly when
    all columns have one length, and raises [ValueError] otherwise;
    the frame keeps the columns in the order given, and each has as
    many cells as the frame has rows. *)
Theorem pd_DataFrame_equal_lengths cols :
  ((exists df, pd_DataFrame cols = Ok df) <->
   (forall a b, a ∈ cols -> b ∈ cols ->
      column_length (snd a) = column_length (snd b))) /\
  (forall df, pd_DataFrame cols = Ok df -> df_columns df = cols /\ df_wf df) /\
  ((exists df, pd_DataFrame cols = Ok df) \/ pd_DataFrame cols = Raise ValueError).
Proof.
  destruct cols as [|[k c] cols].
  - split; [split|split].
    + intros _ a b Ha. apply elem_of_nil in Ha. contradiction.
    + intros _. eexists. reflexivity.
    + intros df H. cbn in H. injection H as <-. split; [reflexivity|].
      intros kc Hkc. cbn in Hkc. apply elem_of_nil in Hkc. contradiction.
    + left. eexists. reflexivity.
  - unfold pd_DataFrame.
    destruct (forallb (fun kc => Nat.eqb (column_length (snd kc)) (column_length c))
                ((k, c) :: cols)) eqn:E.
    + assert (Hall : forall a, a ∈ (k, c) :: cols ->
                column_length (snd a) = column_length c).
      { intros a Ha. rewrite forallb_forall in E.
        apply Nat.eqb_eq. apply E. apply list_elem_of_In. exact Ha. }
      split; [split|split].
      * intros _ a b Ha Hb. rewrite (Hall a Ha), (Hall b Hb). reflexivity.
      * intros _. eexists. reflexivity.
      * intros df H. injection H as <-. split; [reflexivity|].
        intros kc Hkc. cbn [df_columns df_nrows] in *. apply Hall. exact Hkc.
      * left. eexists. reflexivity.
    + split; [split|split].
      * intros [df H]. discriminate.
      * intros Hall. exfalso.
        assert (Ht : forallb (fun kc => Nat.eqb (column_length (snd kc))
                                          (column_length c)) ((k, c) :: cols) = true).
        { apply forallb_forall. intros a Ha. apply Nat.eqb_eq.
          apply (Hall a (k, c)); [apply list_elem_of_In; exact Ha
                                 | apply list_elem_of_here]. }
        rewrite Ht in E. discriminate.
      * intros df H. discriminate.
      * right. reflexivity.
Qed.

(** X13: the table written for a frame whose columns all have the
    frame's length is rectangular: a header and one line per row,
    each with one cell per column. *)
Theorem csv_table_rectangular df :
  df_wf df ->
  length (csv_table df) = S (df_nrows df) /\
  forall row, row ∈ csv_table df -> length row = length (df_columns df).
Proof.
  intros Hwf. unfold csv_table. cbn [length].
  rewrite length_fmap, length_seq. split; [reflexivity|].
  intros row Hrow. apply elem_of_cons in Hrow. destruct Hrow as [-> | Hrow].
  - unfold df_header. apply length_fmap.
  - apply list_elem_of_fmap in Hrow. destruct Hrow as (i & -> & Hi).
    apply elem_of_seq in Hi. unfold df_row. apply omap_length_total.
    intros kc Hkc. apply lookup_lt_is_Some_2.
    fold (column_length (snd kc)). rewrite (Hwf kc Hkc). lia.
Qed.

End FrameFacts.

(** * NumPy operations of the script *)

Section NumPyFacts.

Context {RS : RandomState}.

Lemma leb_refl (x : float) : is_nan x = false -> leb x x = true.
Proof.
  unfold leb, SFleb. destruct x as [s | s | | s m e]; try discriminate; intros _.
  - reflexivity.
  - destruct s; reflexivity.
  - simpl. rewrite Z.compare_refl.
    change (Pos.compare_cont Eq m m) with (Pos.compare m m).
    rewrite Pos.compare_refl. destruct s; reflexivity.
Qed.

Lemma np_maximum_idem x lo : np_maximum (np_maximum x lo) lo = np_maximum x lo.
Proof.
  unfold np_maximum.
  destruct (is_nan x || leb lo x) eqn:E; [rewrite E; reflexivity|].
  destruct (is_nan lo) eqn:En; [reflexivity|].
  rewrite (leb_refl lo En). reflexivity.
Qed.

(** X14: clamping from below keeps the length and every NaN entry,
    raises every other entry to at least the bound when the bound is a
    number, and clamping a second time changes nothing. *)
Theorem np_clip_min_idempotent a a_min :
  length (np_clip_min a a_min) = length a /\
  np_clip_min (np_clip_min a a_min) a_min = np_clip_min a a_min /\
  (forall i x, a !! i = Some x -> is_nan x = true ->
     np_clip_min a a_min !! i = Some x) /\
  (is_nan a_min = false ->
   forall y, y ∈ np_clip_min a a_min -> is_nan y = true \/ leb a_min y = true).
Proof.
  unfold np_clip_min. split; [apply length_fmap|]. split; [|split].
  - rewrite <- list_fmap_compose. apply list_fmap_ext.
    intros i x _. apply np_maximum_idem.
  - intros i x Hx Hn. rewrite list_lookup_fmap, Hx. cbn.
    unfold np_maximum. rewrite Hn. reflexivity.
  - intros Hb y Hy. apply list_elem_of_fmap in Hy. destruct Hy as (x & -> & _).
    unfold np_maximum. destruct (is_nan x) eqn:En; [left; exact En|].
    cbn [orb]. destruct (leb a_min x) eqn:El; [right; exact El|].
    right. apply leb_refl. exact Hb.
Qed.

(** X15: [np.random.choice] raises [ValueError] when samples are
    requested from an empty population; otherwise it returns the
    requested number of values, each an element of the population,
    and touches neither files nor output. *)
Theorem np_random_choice_spec a n w :
  (a = [] -> (0 < n)%nat -> np_random_choice a n w = Raise ValueError) /\
  (a <> [] \/ n = 0%nat ->
   exists l w',
     np_random_choice a n w = Ok (l, w') /\
     length l = n /\
     (forall x, x ∈ l -> x ∈ a) /\
     w_fs w' = w_fs w /\ w_events w' = w_events w).
Proof.
  split.
  - intros -> Hn. destruct n; [lia | reflexivity].
  - intros Hor.
    assert (Hrun : np_random_choice a n w =
              Ok ((fun i => nth i a EmptyString) <$> fst (rs_randint (length a) n (w_rng w)),
                  {| w_rng := snd (rs_randint (length a) n (w_rng w));
                     w_fs := w_fs w; w_events := w_events w |})).
    { unfold np_random_choice.
      destruct a as [|x a]; [|reflexivity].
      destruct Hor as [Hne | ->]; [contradiction | reflexivity]. }
    eexists. eexists. split; [exact Hrun|].
    split; [rewrite length_fmap; apply rs_randint_length|].
    split; [|split; reflexivity].
    intros x Hx. apply list_elem_of_fmap in Hx. destruct Hx as (i & -> & Hi).
    destruct a as [|y a].
    + destruct Hor as [Hne | ->]; [contradiction|].
      pose proof (rs_randint_length 0 0 (w_rng w)) as Hl.
      apply nil_length_inv in Hl. cbn [length] in Hi. rewrite Hl in Hi.
      apply elem_of_nil in Hi. contradiction.
    + apply rs_randint_bound in Hi; [|cbn [length]; lia].
      apply list_elem_of_In, nth_In. exact Hi.
Qed.

End NumPyFacts.

(** * Evaluating the model *)

(** The clamp raises 42.5 to 100, keeps 510.5 and propagates NaN. *)
Example np_maximum_examples :
  np_maximum (example_normals 1) f_100 = f_100 /\
  np_maximum (example_normals 0) f_100 = example_normals 0 /\
  np_maximum nan f_100 = nan.
Proof. repeat split; reflexivity. Qed.

(** A one-element operand is broadcast; other length mismatches raise. *)
Example np_multiply_shapes :
  np_multiply [f_100] [f_1_0; f_0_3] = Ok [mul f_100 f_1_0; mul f_100 f_0_3] /\
  np_multiply [f_100; f_100] [f_1_0; f_0_3; f_0_3] = Raise ValueError.
Proof. split; reflexivity. Qed.

(** The declines of the example run: the smallest is positive, the
    largest is 70. *)
Example example_declines :
  bind (@dataset example_rng 4) (fun df => float_column df "decline_percent")
    example_world
  = Ok ([S754_finite false 4503599627370496 (-97);
         S754_finite false 4925812092436481 (-47);
         f_70;
         S754_finite false 4503599627370496 (-97)],
        @Build_world example_rng 12%nat ∅ []).
Proof. vm_compute. reflexivity. Qed.

(** The grouped mean of four declines, summed with compensation: the
    last bit of the result is the one the compensation decides. *)
Example group_mean_compensated :
  group_mean [S754_finite false 8277428105163673 (-48);
              S754_finite false 5357261301925998 (-47);
              S754_finite false 5180985568837819 (-47);
              S754_finite false 6617287145032890 (-48)]
  = S754_finite false 8992802247931049 (-48).
Proof. vm_compute. reflexivity. Qed.

(** The mean of no values is NaN, and NaN entries are skipped. *)
Example group_mean_edges :
  group_mean [] = nan /\
  group_mean [nan; f_70; nan] = f_70.
Proof. split; vm_compute; reflexivity. Qed.

(** When the output path is a regular file the CSV export refuses it;
    when an artifact path is a directory the run stops at that write. *)
Example script_output_path_is_file :
  @script example_rng 4
    (@Build_world example_rng 0%nat
       {[ output_dir := File (CsvFile []) ]} [])
  = Raise OSError.
Proof. vm_compute. reflexivity. Qed.

Example script_artifact_is_directory :
  @script example_rng 4
    (@Build_world example_rng 0%nat
       (<[ hist_path := Dir ]> {[ output_dir := Dir ]}) [])
  = Raise IsADirectoryError.
Proof. vm_compute. reflexivity. Qed.

(** An empty population raises only when samples are requested. *)
Example np_random_choice_empty :
  @np_random_choice example_rng [] 2 example_world = Raise ValueError /\
  @np_random_choice example_rng [] 0 example_world = Ok ([], example_world).
Proof. split; vm_compute; reflexivity. Qed.

(** * The properties on an example run

    Four businesses, drawn by [example_rng] from the state 0.  The
    revenues are 100 (clamped from 42.5), 12345.625, 510.5 and 100.
    The samples of the unit interval are the largest number below 1,
    1/2, 0 and again the largest number below 1, so the drop factors
    are 0.9999999999999998, 0.65, 0.3 and 0.9999999999999998, and the
    declines [2^-45], 35.000000000000007, 70 and [2^-45]. *)

Lemma decline_percent_in_0_70_witness :
  leb zero f_70 = true /\ leb f_70 f_70 = true.
Proof.
  eapply (decline_percent_in_0_70 (RS := example_rng) 4 example_world _ _ _ f_70).
  - reflexivity.
  - reflexivity.
  - vm_compute. apply list_elem_of_further, list_elem_of_further, list_elem_of_here.
Defined.

Lemma post_is_pre_times_drop_witness :
  let s := @simulated_from example_rng 4 0%nat in
  let p := example_normals 5 in
  let d := add f_0_3 (mul (sub f_1_0 f_0_3) (example_samples 9)) in
  post_covid_revenue s !! 1%nat = Some (mul p d) /\
  length (post_covid_revenue s) = 4%nat /\
  exists vp vd vq,
    pos_normal p vp /\ pos_normal d vd /\ pos_normal (mul p d) vq /\
    (Rabs (vq - vp * vd) <= ulp_half * (vp * vd))%R.
Proof.
  eapply (post_is_pre_times_drop (RS := example_rng) 4 example_world _ _ 1).
  - vm_compute. reflexivity.
  - vm_compute. reflexivity.
  - vm_compute. reflexivity.
Defined.

Lemma pre_revenue_clamped_witness :
  let s := @simulated_from example_rng 4 0%nat in
  pre_covid_revenue s
    = (fun x => np_maximum x f_100) <$> @normal_batch example_rng 4 0%nat /\
  length (@normal_batch example_rng 4 0%nat) = 4%nat /\
  (forall r, r ∈ @normal_batch example_rng 4 0%nat ->
     (ltb r f_100 = true -> np_maximum r f_100 = f_100) /\
     (leb f_100 r = true -> np_maximum r f_100 = r)) /\
  (forall p, p ∈ pre_covid_revenue s -> leb f_100 p = true).
Proof.
  eapply (pre_revenue_clamped (RS := example_rng) 4 example_world).
  vm_compute. reflexivity.
Defined.

Lemma division_is_safe_witness :
  let s := @simulated_from example_rng 4 0%nat in
  let p := example_normals 5 in
  let q := mul p (add f_0_3 (mul (sub f_1_0 f_0_3) (example_samples 9))) in
  decline_of (pre_covid_revenue s) (post_covid_revenue s) !! 1%nat
    = Some (mul (div (sub p q) p) f_100) /\
  leb f_100 p = true /\
  eqb p zero = false /\
  is_finite (div (sub p q) p) = true /\
  is_finite (mul (div (sub p q) p) f_100) = true.
Proof.
  eapply (division_is_safe (RS := example_rng) 4 example_world _ _ _ _ _ 1).
  - reflexivity.
  - reflexivity.
  - reflexivity.
  - reflexivity.
  - vm_compute. reflexivity.
  - vm_compute. reflexivity.
Defined.

Lemma decline_strictly_positive_witness :
  let p := f_100 in
  let q := mul p (add f_0_3 (mul (sub f_1_0 f_0_3) (example_samples 8))) in
  ltb zero (mul (div (sub p q) p) f_100) = true /\ ltb q p = true.
Proof.
  eapply (decline_strictly_positive (RS := example_rng) 4 example_world _ _ _ _ _ 0).
  - reflexivity.
  - reflexivity.
  - reflexivity.
  - reflexivity.
  - vm_compute. reflexivity.
  - vm_compute. reflexivity.
  - vm_compute. reflexivity.
Defined.

Lemma exported_table_witness :
  exists w' rows,
    @script example_rng 4 example_world = Ok (tt, w') /\
    w_fs w' !! csv_path =
      Some (File (CsvFile
        ([CStr "business_id"; CStr "sector"; CStr "pre_covid_revenue";
          CStr "post_covid_revenue"; CStr "decline_percent"] :: rows))) /\
    length rows = 4%nat /\
    (forall i, (i < 4)%nat ->
       exists sec p q x,
         rows !! i = Some [CInt (1 + Z.of_nat i); CStr sec; CFloat p; CFloat q; CFloat x]) /\
    (forall i j ri rj,
       rows !! i = Some ri -> rows !! j = Some rj ->
       ri !! 0%nat = rj !! 0%nat -> i = j).
Proof.
  apply (exported_table (RS := example_rng) 4 example_world).
  split; [left; reflexivity|].
  intros p _. simpl. rewrite lookup_empty. discriminate.
Defined.


Lemma existing_directory_untouched_witness :
  exists w' evs,
    @script example_rng 4 example_world_with_dir = Ok (tt, w') /\
    w_events w' = w_events example_world_with_dir ++ evs /\
    (forall p, EvMakedirs p ∉ evs) /\
    (EvPrint "Created output directory: output_images" ∉ evs) /\
    (forall p, EvWrite p ∈ evs -> (p ∈ artifact_paths) /\ removelast p = output_dir) /\
    w_fs w' !! output_dir = Some Dir /\
    (forall p : path, p ∉ artifact_paths ->
       w_fs w' !! p = w_fs example_world_with_dir !! p).
Proof.
  apply (proj2 (existing_directory_untouched (RS := example_rng) 4 example_world_with_dir)).
  - reflexivity.
  - intros p Hp. simpl.
    rewrite lookup_singleton_ne by (apply not_eq_sym, artifact_not_output_dir; exact Hp).
    discriminate.
Defined.

(** * The properties of a run on the example worlds *)

Lemma example_world_ready : fs_ready (w_fs example_world).
Proof.
  split; [left; reflexivity|].
  intros p _. simpl. rewrite lookup_empty. discriminate.
Qed.

Lemma example_run : @script example_rng 2 example_world = Ok (tt, example_world_after).
Proof.
  rewrite script_ok by exact example_world_ready.
  unfold example_world, example_world_after. cbn [w_fs w_events w_rng].
  rewrite lookup_empty. reflexivity.
Qed.

Lemma rerun_identical_witness :
  exists w2,
    @script example_rng 2 example_world_after = Ok (tt, w2) /\
    w_fs w2 = w_fs example_world_after /\
    w_events w2 = w_events example_world_after ++ [EvExists output_dir] ++ export_events.
Proof.
  apply (rerun_identical (RS := example_rng) 2 example_world).
  exact example_run.
Defined.

Lemma run_leaves_five_files_witness :
  w_fs example_world_after !! output_dir = Some Dir /\
  (exists rows, w_fs example_world_after !! csv_path = Some (File (CsvFile rows))) /\
  (forall p, p ∈ chart_paths ->
     exists fig, w_fs example_world_after !! p = Some (File (PngFile fig))) /\
  (forall p : path, p ∉ artifact_paths -> p <> output_dir ->
     w_fs example_world_after !! p = w_fs example_world !! p).
Proof.
  apply (run_leaves_five_files (RS := example_rng) 2 example_world).
  exact example_run.
Defined.

Lemma main_trace_witness :
  exists w' rows,
    @main example_rng example_world = Ok (tt, w') /\
    w_events w' =
      w_events example_world ++
      [EvExists ["output_images"%string]] ++
      match w_fs example_world !! output_dir with
      | None => [EvMakedirs ["output_images"%string];
                 EvPrint "Created output directory: output_images"]
      | Some _ => []
      end ++
      [EvWrite ["output_images"; "covid_impact_data.csv"]%string;
       EvPrint "Data saved to: output_images/covid_impact_data.csv";
       EvWrite ["output_images"; "hist_decline_percent.png"]%string;
       EvPrint "Histogram saved to: output_images/hist_decline_percent.png";
       EvWrite ["output_images"; "boxplot_decline_by_sector.png"]%string;
       EvPrint "Boxplot saved to: output_images/boxplot_decline_by_sector.png";
       EvWrite ["output_images"; "barplot_avg_decline_by_sector.png"]%string;
       EvPrint "Bar plot saved to: output_images/barplot_avg_decline_by_sector.png";
       EvWrite ["output_images"; "scatter_pre_vs_post_revenue.png"]%string;
       EvPrint "Scatter plot saved to: output_images/scatter_pre_vs_post_revenue.png";
       EvPrint "All images have been saved in the 'output_images' folder. You can now download them from that folder."] /\
    w_fs w' !! csv_path = Some (File (CsvFile rows)) /\
    length rows = 1001%nat.
Proof.
  apply (main_trace (RS := example_rng) example_world).
  split; [left; reflexivity|].
  intros p _. simpl. rewrite lookup_empty. discriminate.
Defined.

Lemma drop_factor_in_range_witness :
  leb f_0_3 f_0_3 = true /\ ltb f_0_3 f_1_0 = true.
Proof.
  eapply (drop_factor_in_range (RS := example_rng) 4 example_world _ _ f_0_3).
  - vm_compute. reflexivity.
  - vm_compute. apply list_elem_of_further, list_elem_of_further, list_elem_of_here.
Defined.

Lemma post_revenue_at_least_30_witness :
  let q := mul (example_normals 6) f_0_3 in
  leb f_30 q = true /\ is_finite q = true.
Proof.
  eapply (post_revenue_at_least_30 (RS := example_rng) 4 example_world _ _
            (mul (example_normals 6) f_0_3)).
  - vm_compute. reflexivity.
  - vm_compute. apply list_elem_of_further, list_elem_of_further, list_elem_of_here.
Defined.

Lemma sectors_from_the_list_witness : "Hospitality"%string ∈ sectors.
Proof.
  eapply (sectors_from_the_list (RS := example_rng) 4 example_world _ _ "Hospitality").
  - vm_compute. reflexivity.
  - vm_compute. apply list_elem_of_further, list_elem_of_here.
Defined.

Lemma bar_chart_sorted_witness :
  exists w' fig bars,
    @script example_rng 4 example_world = Ok (tt, w') /\
    w_fs w' !! barplot_path = Some (File (PngFile fig)) /\
    fig_plot fig = Barplot bars /\
    Sorted (fun a b => String.leb a b = true) (fst <$> bars) /\
    NoDup (fst <$> bars) /\
    (forall k, k ∈ (fst <$> bars) <->
               k ∈ business_sectors
                     (@simulated_from example_rng 4 (@rs_seed example_rng 42))) /\
    (forall k, k ∈ (fst <$> bars) -> k ∈ sectors) /\
    (length bars <= 5)%nat.
Proof.
  apply (bar_chart_sorted (RS := example_rng) 4 example_world).
  split; [left; reflexivity|].
  intros p _. simpl. rewrite lookup_empty. discriminate.
Defined.

Lemma scatter_points_below_line_witness :
  exists w' fig xs ys hue m,
    @script example_rng 4 example_world = Ok (tt, w') /\
    w_fs w' !! scatter_path = Some (File (PngFile fig)) /\
    fig_plot fig = Scatterplot xs ys hue [zero; m] [zero; m] /\
    length xs = 4%nat /\ length ys = 4%nat /\ length hue = 4%nat /\
    (4%nat = 0%nat -> m = nan) /\
    ((0 < 4)%nat -> m ∈ xs) /\
    (forall i x y, xs !! i = Some x -> ys !! i = Some y ->
       ltb zero y = true /\ ltb y x = true /\ leb x m = true).
Proof.
  apply (scatter_points_below_line (RS := example_rng) 4 example_world).
  split; [left; reflexivity|].
  intros p _. simpl. rewrite lookup_empty. discriminate.
Defined.

Lemma charts_show_the_saved_table_witness :
  exists w' header rows fh values fb bx by_ fs_ sx sy hue lx ly,
    @script example_rng 4 example_world = Ok (tt, w') /\
    w_fs w' !! csv_path = Some (File (CsvFile (header :: rows))) /\
    w_fs w' !! hist_path = Some (File (PngFile fh)) /\
    fig_plot fh = Histplot values 30 true /\
    w_fs w' !! boxplot_path = Some (File (PngFile fb)) /\
    fig_plot fb = Boxplot bx by_ /\
    w_fs w' !! scatter_path = Some (File (PngFile fs_)) /\
    fig_plot fs_ = Scatterplot sx sy hue lx ly /\
    length rows = 4%nat /\ length values = 4%nat /\
    length bx = 4%nat /\ length by_ = 4%nat /\
    length sx = 4%nat /\ length sy = 4%nat /\ length hue = 4%nat /\
    (forall i id sec p q x,
       rows !! i = Some [CInt id; CStr sec; CFloat p; CFloat q; CFloat x] ->
       values !! i = Some x /\
       bx !! i = Some sec /\ by_ !! i = Some x /\
       sx !! i = Some p /\ sy !! i = Some q /\ hue !! i = Some sec).
Proof.
  apply (charts_show_the_saved_table (RS := example_rng) 4 example_world).
  split; [left; reflexivity|].
  intros p _. simpl. rewrite lookup_empty. discriminate.
Defined.

Lemma df_setitem_getitem_witness :
  exists df',
    df_setitem example_frame "decline_percent" (FloatCol [f_100; f_70]) = Ok df' /\
    df_getitem df' "decline_percent" = Ok (FloatCol [f_100; f_70]) /\
    (forall other, other <> "decline_percent"%string ->
       df_getitem df' other = df_getitem example_frame other) /\
    df_nrows df' = df_nrows example_frame /\
    df_header df' =
      match assoc "decline_percent" (df_columns example_frame) with
      | Some _ => df_header example_frame
      | None => df_header example_frame ++ [CStr "decline_percent"]
      end /\
    (df_wf example_frame -> df_wf df').
Proof.
  apply (df_setitem_getitem example_frame "decline_percent" (FloatCol [f_100; f_70])).
  reflexivity.
Defined.

Lemma csv_table_rectangular_witness :
  length (csv_table example_frame) = S (df_nrows example_frame) /\
  forall row, row ∈ csv_table example_frame ->
              length row = length (df_columns example_frame).
Proof.
  apply (csv_table_rectangular example_frame).
  intros kc Hkc. unfold example_frame in Hkc. cbn [df_columns] in Hkc.
  rewrite !elem_of_cons, elem_of_nil in Hkc.
  destruct Hkc as [-> | [-> | []]]; reflexivity.
Defined.
